(** * Menu API server (src/server.js): a shallow embedding and its properties

    The server keeps one in-memory array [menuItems] and exposes five
    routes over it.  Two of them (POST and PUT) run the express-validator
    chain [validateMenuItem] and the middleware [handleValidationErrors] before
    their handler.

    Conventions of the embedding.
    - A JavaScript string is a [string]: a sequence of code units in the
      range 0..255.
    - A JavaScript number that is an item id, or that [parseInt] reads, is
      a [Z]; a number that comes from a JSON literal or from [parseFloat]
      is an exact decimal [mant * 10 ^ expo] (type [decimal]), which
      stands for the double nearest to it.  The rounding, overflow and
      underflow of IEEE doubles are not modelled: a property that depends
      on them is stated for the numbers on which they do not occur
      ([in_double_range], [short_decimal], integers up to 2^53).
    - A request is one that reaches a route of the collection: the body
      parser [express.json()] has read its body and the router has
      decoded its path parameter.  What Express answers by itself before
      that (a body that is not JSON, a path that cannot be decoded) is
      not part of the embedding.
    - [undefined] is [None] of an option type.
    - The request body is a JSON object: a finite map from property names
      to JSON values.
    - The validators [isString], [isLength], [isFloat], [isIn], [isArray],
      [isBoolean], the sanitizer [trim] and the modifier [optional] are
      library code (express-validator 7 over validator.js 13); they are
      modelled here after that library's behaviour: a standard validator
      receives the value converted to a string, and is applied to every
      element when the value is an array. *)

From Stdlib Require Import ZArith Ascii String DecimalString.
From Stdlib Require DecimalPos DecimalN.
From stdpp Require Import base option list strings gmap.

Local Open Scope string_scope.
Local Open Scope list_scope.
Local Open Scope Z_scope.

(** * The program *)

(** ** Strings and characters *)

Module Chars.

Definition code (c : ascii) : Z := Z.of_N (N_of_ascii c).

(** The white space of the regular expression class [\s] and of
    [StrWhiteSpaceChar], within code units 0..255: TAB, LF, VT, FF, CR,
    SPACE and NBSP. *)
Definition is_space (c : ascii) : bool :=
  let n := code c in
  ((9 <=? n) && (n <=? 13)) || (n =? 32) || (n =? 160).

Definition is_digit (c : ascii) : bool :=
  let n := code c in (48 <=? n) && (n <=? 57).

(** The value of a digit in radix 10 or 16, when it is one. *)
Definition digit_value (radix : Z) (c : ascii) : option Z :=
  let n := code c in
  let v :=
    if (48 <=? n) && (n <=? 57) then Some (n - 48)
    else if (97 <=? n) && (n <=? 122) then Some (n - 87)
    else if (65 <=? n) && (n <=? 90) then Some (n - 55)
    else None in
  match v with
  | Some d => if d <? radix then Some d else None
  | None => None
  end.

(** The longest prefix of radix-[radix] digits, as digit values, and the
    rest of the string. *)
Fixpoint span_digits (radix : Z) (s : string) : list Z * string :=
  match s with
  | EmptyString => ([], s)
  | String c r =>
      match digit_value radix c with
      | Some d => let '(ds, rest) := span_digits radix r in (d :: ds, rest)
      | None => ([], s)
      end
  end.

(** The number written by a list of digits, most significant first. *)
Definition digits_value (radix : Z) (ds : list Z) : Z :=
  foldl (fun acc d => acc * radix + d) 0 ds.

Fixpoint ltrim (s : string) : string :=
  match s with
  | EmptyString => EmptyString
  | String c r => if is_space c then ltrim r else s
  end.

Fixpoint rtrim (s : string) : string :=
  match s with
  | EmptyString => EmptyString
  | String c r =>
      match rtrim r with
      | EmptyString => if is_space c then EmptyString else String c EmptyString
      | r' => String c r'
      end
  end.

(** validator.js [trim(str)] without a character set. *)
Definition trim (s : string) : string := rtrim (ltrim s).

Definition strip_sign (s : string) : bool * string :=
  match s with
  | String "-" r => (true, r)
  | String "+" r => (false, r)
  | _ => (false, s)
  end.

Fixpoint repeat_char (c : ascii) (n : nat) : string :=
  match n with
  | O => EmptyString
  | S k => String c (repeat_char c k)
  end.

Fixpoint join (sep : string) (l : list string) : string :=
  match l with
  | [] => EmptyString
  | [x] => x
  | x :: r => x +:+ sep +:+ join sep r
  end.

End Chars.

(** ** Numbers *)

(** An exact decimal: [mant * 10 ^ expo]. *)
Record decimal := Dec { mant : Z; expo : Z }.

(** The results of [parseFloat]. *)
Inductive number :=
| NaN
| Infinity (negative : bool)
| Finite (d : decimal).

Module Num.

Fixpoint strip_zeros (fuel : nat) (m e : Z) : decimal :=
  match fuel with
  | O => Dec m e
  | S f => if m mod 10 =? 0 then strip_zeros f (m / 10) (e + 1) else Dec m e
  end.

(** The one representation of a decimal whose mantissa does not end in
    a zero digit; zero is [Dec 0 0]. *)
Definition normalize (d : decimal) : decimal :=
  if mant d =? 0 then Dec 0 0
  else strip_zeros (S (Z.to_nat (Z.log2 (Z.abs (mant d))))) (mant d) (expo d).

Definition of_Z (n : Z) : decimal := normalize (Dec n 0).

(** [x > 0] on numbers; every comparison with [NaN] is false. *)
Definition gt0 (x : number) : bool :=
  match x with
  | NaN => false
  | Infinity negative => negb negative
  | Finite d => 0 <? mant d
  end.

Definition nat_string (n : Z) : string :=
  NilZero.string_of_uint (N.to_uint (Z.to_N n)).

(** [Number::toString] in radix 10 of a positive decimal with the digits
    [ds] and the exponent [e]: with [k] digits and [n = k + e], plain
    digits when [k <= n <= 21], a decimal point inside the digits when
    [0 < n <= 21], leading zeros when [-6 < n <= 0], and the exponential
    notation otherwise. *)
Definition positive_string (ds : string) (e : Z) : string :=
  let k := Z.of_nat (String.length ds) in
  let n := k + e in
  if (k <=? n) && (n <=? 21) then
    ds +:+ Chars.repeat_char "0" (Z.to_nat (n - k))
  else if (0 <? n) && (n <=? 21) then
    substring 0 (Z.to_nat n) ds +:+ "." +:+
    substring (Z.to_nat n) (Z.to_nat (k - n)) ds
  else if (-6 <? n) && (n <=? 0) then
    "0." +:+ Chars.repeat_char "0" (Z.to_nat (- n)) +:+ ds
  else
    let x := n - 1 in
    let es := (if x <? 0 then "-" else "+") +:+ nat_string (Z.abs x) in
    if k =? 1 then ds +:+ "e" +:+ es
    else substring 0 1 ds +:+ "." +:+
         substring 1 (Z.to_nat (k - 1)) ds +:+ "e" +:+ es.

(** [String(x)] of a finite number. *)
Definition to_string (d : decimal) : string :=
  let d := normalize d in
  if mant d =? 0 then "0"
  else if mant d <? 0 then "-" +:+ positive_string (nat_string (- mant d)) (expo d)
  else positive_string (nat_string (mant d)) (expo d).

Definition is_prefix (p s : string) : bool :=
  String.eqb (substring 0 (String.length p) s) p.

(** [parseFloat] of a string: leading white space is skipped, then the
    longest prefix that is a decimal literal is read; what follows it is
    ignored. *)
Definition parseFloat (s : string) : number :=
  let '(negative, s1) := Chars.strip_sign (Chars.ltrim s) in
  if is_prefix "Infinity" s1 then Infinity negative
  else
    let '(ip, r1) := Chars.span_digits 10 s1 in
    let '(fp, r2) :=
      match r1 with
      | String "." r => Chars.span_digits 10 r
      | _ => ([], r1)
      end in
    match ip ++ fp with
    | [] => NaN
    | ds =>
        let ex :=
          match r2 with
          | String c r =>
              if (Chars.code c =? 101) || (Chars.code c =? 69) then
                let '(eneg, r') := Chars.strip_sign r in
                match Chars.span_digits 10 r' with
                | ([], _) => 0
                | (es, _) =>
                    let v := Chars.digits_value 10 es in
                    if eneg then - v else v
                end
              else 0
          | EmptyString => 0
          end in
        let m := Chars.digits_value 10 ds in
        Finite (normalize (Dec (if negative then - m else m)
                               (ex - Z.of_nat (length fp))))
    end.

(** [parseInt] of a string with no radix argument: leading white space
    and a sign are skipped, a prefix [0x] or [0X] selects radix 16, and
    the longest prefix of digits is read; [None] is [NaN]. *)
Definition parseInt (s : string) : option Z :=
  let '(negative, s1) := Chars.strip_sign (Chars.ltrim s) in
  let '(radix, s2) :=
    match s1 with
    | String "0" (String c r) =>
        if (Chars.code c =? 120) || (Chars.code c =? 88) then (16, r)
        else (10, s1)
    | _ => (10, s1)
    end in
  match Chars.span_digits radix s2 with
  | ([], _) => None
  | (ds, _) =>
      let v := Chars.digits_value radix ds in
      Some (if negative then - v else v)
  end.

End Num.

(** ** JSON values and request bodies *)

(** A value produced by the JSON body parser. *)
#[local] Set Warnings "-register-all".
Inductive value :=
| VNull
| VBool (b : bool)
| VNum (n : decimal)
| VStr (s : string)
| VArr (l : list value)
| VObj (o : gmap string value).
#[local] Set Warnings "register-all".

(** [String(v)]; [None] is [undefined].  Inside [Array.prototype.join]
    a [null] element is written as the empty string. *)
Fixpoint jsString (v : value) : string :=
  match v with
  | VNull => "null"
  | VBool true => "true"
  | VBool false => "false"
  | VNum n => Num.to_string n
  | VStr s => s
  | VArr l =>
      Chars.join ","
        (map (fun e => match e with VNull => "" | _ => jsString e end) l)
  | VObj _ => "[object Object]"
  end.

Definition jsString_opt (v : option value) : string :=
  match v with
  | None => "undefined"
  | Some x => jsString x
  end.

(** The global [parseFloat(x)]: the argument is converted to a string
    first. *)
Definition parseFloat (v : option value) : number :=
  Num.parseFloat (jsString_opt v).

(** ** The validation library *)

(** validator.js: validators and sanitizers over strings. *)
Module Validator.

(** [isLength(str, {min})]; no code unit of the range 0..255 is part of
    a surrogate pair or a presentation sequence, so the length counted
    is the length of the string. *)
Definition isLength (min : nat) (str : string) : bool :=
  bool_decide (min <= String.length str)%nat.

(** The regular expression of [isFloat] without a locale, anchored at
    both ends: an optional sign, optional digits, an optional point
    followed by any number of digits, and an optional exponent made of
    [e] or [E], an optional sign and at least one digit. *)
Definition float_re (str : string) : bool :=
  let s1 :=
    match str with
    | String "-" r | String "+" r => r
    | _ => str
    end in
  let r1 := snd (Chars.span_digits 10 s1) in
  let r2 :=
    match r1 with
    | String "." r => snd (Chars.span_digits 10 r)
    | _ => r1
    end in
  match r2 with
  | EmptyString => true
  | String c r =>
      ((Chars.code c =? 101) || (Chars.code c =? 69)) &&
      let r' :=
        match r with
        | String "-" t | String "+" t => t
        | _ => r
        end in
      match Chars.span_digits 10 r' with
      | (_ :: _, EmptyString) => true
      | _ => false
      end
  end.

(** [isFloat(str, {gt: 0})]: the five strings refused outright, then the
    regular expression and [parseFloat(str) > 0].  (The library parses
    [str.replace(',', '.')]; a string that matches the regular
    expression holds no comma.) *)
Definition isFloat_gt0 (str : string) : bool :=
  if bool_decide (str ∈ [""; "."; ","; "-"; "+"]) then false
  else float_re str && Num.gt0 (Num.parseFloat str).

Definition isIn (options : list string) (str : string) : bool :=
  bool_decide (str ∈ options).

(** [isBoolean(str)] with the default options (not loose). *)
Definition isBoolean (str : string) : bool :=
  bool_decide (str ∈ ["true"; "false"; "1"; "0"]).

End Validator.

(** An entry of [validationResult(req).array()]: the error object the
    library makes for a field, with the value the validator was given
    ([undefined] is [None]; [res.json] leaves such a property out), the
    message, the name of the field and the part of the request it is in.
    The property [value] of the library is [error_value] here. *)
Record verror := VError {
  type : string;
  error_value : option value;
  msg : string;
  path : string;
  location : string
}.

(** The error a chain of [body(...)] records for the field [p]. *)
Definition field_error (p message : string) (v : option value) : verror :=
  VError "field" v message p "body".

(** express-validator's [toString(value)]: the empty string for
    [undefined] and [null], the string of the value otherwise; an array
    is written by [Array.prototype.toString], its elements joined with
    commas.  An object value is taken to have no own property named
    [toString]. *)
Definition toString (v : option value) : string :=
  match v with
  | None | Some VNull => ""
  | Some x => jsString x
  end.

(** The items of a validation chain. *)
Inductive chain_item :=
| custom (validator : option value -> bool) (message : string)
| standard (validator : string -> bool) (message : string)
| sanitizer (f : string -> string).

(** [body(field)] followed by its items; [is_optional] records a call of
    [.optional()]. *)
Record chain := body {
  field : string;
  is_optional : bool;
  stack : list chain_item
}.

(** A standard validator or sanitizer sees the elements of an array one
    by one, and any other value as it is. *)
Definition wrap (v : option value) : list (option value) :=
  match v with
  | Some (VArr l) => map Some l
  | _ => [v]
  end.

Definition run_item (p : string) (it : chain_item) (v : option value)
  : list verror * option value :=
  match it with
  | custom validator message =>
      (if validator v then [] else [field_error p message v], v)
  | standard validator message =>
      (flat_map (fun x => if validator (toString x) then []
                          else [field_error p message x]) (wrap v), v)
  | sanitizer f =>
      ([], Some match v with
                | Some (VArr l) => VArr (map (fun x => VStr (f (toString (Some x)))) l)
                | _ => VStr (f (toString v))
                end)
  end.

Fixpoint run_stack (p : string) (items : list chain_item) (v : option value)
  : list verror * option value :=
  match items with
  | [] => ([], v)
  | it :: rest =>
      let '(e1, v1) := run_item p it v in
      let '(e2, v2) := run_stack p rest v1 in
      (e1 ++ e2, v2)
  end.

(** One chain as a middleware: it reads its field of [req.body], runs its
    items in order, none of which stops the others, and writes the
    sanitized value back.  An optional chain does nothing on [undefined]. *)
Definition run_chain (c : chain) (b : gmap string value)
  : list verror * gmap string value :=
  match is_optional c, b !! field c with
  | true, None => ([], b)
  | _, v =>
      let '(es, v') := run_stack (field c) (stack c) v in
      (es, match v' with Some x => <[field c := x]> b | None => b end)
  end.

(** The chains of a route run one after the other; the errors of all of
    them are what [validationResult(req)] holds. *)
Fixpoint run_chains (cs : list chain) (b : gmap string value)
  : list verror * gmap string value :=
  match cs with
  | [] => ([], b)
  | c :: rest =>
      let '(e1, b1) := run_chain c b in
      let '(e2, b2) := run_chains rest b1 in
      (e1 ++ e2, b2)
  end.

(** The validators and the sanitizer the server uses.  [isString] and
    [isArray] are custom validators: they see the value itself ([typeof
    value === 'string'], [Array.isArray(value)] and the length).  The
    others are standard: they see the string of the value.  [isBoolean]
    without the option [strict] is one of them. *)
Definition isString (message : string) : chain_item :=
  custom (fun v => match v with Some (VStr _) => true | _ => false end) message.

Definition isArray_min (min : nat) (message : string) : chain_item :=
  custom (fun v => match v with
                   | Some (VArr l) => bool_decide (min <= length l)%nat
                   | _ => false
                   end) message.

Definition trim : chain_item := sanitizer Chars.trim.

Definition isLength_min (min : nat) : string -> chain_item :=
  standard (Validator.isLength min).

Definition isFloat_gt0 : string -> chain_item := standard Validator.isFloat_gt0.

Definition isIn (options : list string) : string -> chain_item :=
  standard (Validator.isIn options).

Definition isBoolean : string -> chain_item := standard Validator.isBoolean.

(** ** The server *)

(** [validateMenuItem] (lines 85-105). *)
Definition validateMenuItem : list chain :=
  [ body "name" false
      [ isString "Name must be a string";
        trim;
        isLength_min 3 "Name must be at least 3 characters" ];
    body "description" false
      [ isString "Description must be a string";
        trim;
        isLength_min 10 "Description must be at least 10 characters" ];
    body "price" false
      [ isFloat_gt0 "Price must be a number greater than 0" ];
    body "category" false
      [ isString "Category must be a string";
        isIn ["appetizer"; "entree"; "dessert"; "beverage"]
          "Category must be one of: appetizer, entree, dessert, beverage" ];
    body "ingredients" false
      [ isArray_min 1 "Ingredients must be an array with at least 1 item" ];
    body "available" true
      [ isBoolean "Available must be a boolean" ] ].

(** A menu item: an object with exactly these seven properties.  The
    properties copied from the request body may hold [undefined]. *)
Record item := Item {
  id : Z;
  name : option value;
  description : option value;
  price : number;
  category : option value;
  ingredients : option value;
  available : value
}.

Definition strs (l : list string) : option value := Some (VArr (map VStr l)).

(** [menuItems] as the server starts (lines 27-82). *)
Definition menuItems : list item :=
  [ Item 1 (Some (VStr "Classic Burger"))
      (Some (VStr "Beef patty with lettuce, tomato, and cheese on a sesame seed bun"))
      (Finite (Dec 1299 (-2))) (Some (VStr "entree"))
      (strs ["beef"; "lettuce"; "tomato"; "cheese"; "bun"]) (VBool true);
    Item 2 (Some (VStr "Chicken Caesar Salad"))
      (Some (VStr "Grilled chicken breast over romaine lettuce with parmesan and croutons"))
      (Finite (Dec 115 (-1))) (Some (VStr "entree"))
      (strs ["chicken"; "romaine lettuce"; "parmesan cheese"; "croutons";
             "caesar dressing"]) (VBool true);
    Item 3 (Some (VStr "Mozzarella Sticks"))
      (Some (VStr "Crispy breaded mozzarella served with marinara sauce"))
      (Finite (Dec 899 (-2))) (Some (VStr "appetizer"))
      (strs ["mozzarella cheese"; "breadcrumbs"; "marinara sauce"]) (VBool true);
    Item 4 (Some (VStr "Chocolate Lava Cake"))
      (Some (VStr "Warm chocolate cake with molten center, served with vanilla ice cream"))
      (Finite (Dec 799 (-2))) (Some (VStr "dessert"))
      (strs ["chocolate"; "flour"; "eggs"; "butter"; "vanilla ice cream"])
      (VBool true);
    Item 5 (Some (VStr "Fresh Lemonade"))
      (Some (VStr "House-made lemonade with fresh lemons and mint"))
      (Finite (Dec 399 (-2))) (Some (VStr "beverage"))
      (strs ["lemons"; "sugar"; "water"; "mint"]) (VBool true);
    Item 6 (Some (VStr "Fish and Chips"))
      (Some (VStr "Beer-battered cod with seasoned fries and coleslaw"))
      (Finite (Dec 1499 (-2))) (Some (VStr "entree"))
      (strs ["cod"; "beer batter"; "potatoes"; "coleslaw"; "tartar sauce"])
      (VBool false) ].

(** What [res.json] is given. *)
Inductive payload :=
| Items (l : list item)
| OneItem (it : item)
| Message (message : string)
| Failed (message : string) (errors : list verror)
| Deleted (message : string) (it : item).

Record response := Response { status : Z; json : payload }.

(** The state is the array [menuItems]; a handler returns its response
    and the array as it leaves it. *)
Abbreviation store := (list item).

Definition not_found : response := Response 404 (Message "Menu item not found").

(** [item.id === parseInt(req.params.id)]: never true of [NaN]. *)
Definition has_id (idp : string) (it : item) : Prop :=
  Some (id it) = Num.parseInt idp.

#[global] Instance has_id_dec idp it : Decision (has_id idp it).
Proof. unfold has_id. apply _. Defined.

(** [handleValidationErrors] (lines 108-117): with the errors the chains
    before it have collected, it answers 400 and the handler [next] does
    not run; with none, [next] runs. *)
Definition handleValidationErrors (errors : list verror)
    (next : store -> response * store) (st : store) : response * store :=
  match errors with
  | [] => next st
  | _ => (Response 400 (Failed "Validation failed" errors), st)
  end.

(** GET /api/menu (lines 136-138). *)
Definition get_menu (st : store) : response * store :=
  (Response 200 (Items st), st).

(** GET /api/menu/:id (lines 141-147). *)
Definition get_menu_id (idp : string) (st : store) : response * store :=
  match list_find (has_id idp) st with
  | None => (not_found, st)
  | Some (_, it) => (Response 200 (OneItem it), st)
  end.

(** [Math.max(...menuItems.map(item => item.id)) + 1] when the array is
    not empty, 1 when it is. *)
Definition new_id (st : store) : Z :=
  match id <$> st with
  | [] => 1
  | x :: rest => foldl Z.max x rest + 1
  end.

(** The handler of POST /api/menu (lines 151-165). *)
Definition post_menu_handler (b : gmap string value) (st : store)
  : response * store :=
  let newItem :=
    {| id := new_id st;
       name := b !! "name";
       description := b !! "description";
       price := parseFloat (b !! "price");
       category := b !! "category";
       ingredients := b !! "ingredients";
       available := match b !! "available" with
                    | Some a => a
                    | None => VBool true
                    end |} in
  (Response 201 (OneItem newItem), st ++ [newItem]).

(** The handler of PUT /api/menu/:id (lines 170-183): the object found is
    updated where it stands in the array. *)
Definition put_menu_id_handler (idp : string) (b : gmap string value)
    (st : store) : response * store :=
  match list_find (has_id idp) st with
  | None => (not_found, st)
  | Some (i, it) =>
      let it' :=
        {| id := id it;
           name := b !! "name";
           description := b !! "description";
           price := parseFloat (b !! "price");
           category := b !! "category";
           ingredients := b !! "ingredients";
           available := match b !! "available" with
                        | Some a => a
                        | None => VBool true
                        end |} in
      (Response 200 (OneItem it'), <[i := it']> st)
  end.

(** DELETE /api/menu/:id (lines 187-195): [splice(index, 1)]. *)
Definition delete_menu_id (idp : string) (st : store) : response * store :=
  match list_find (has_id idp) st with
  | None => (not_found, st)
  | Some (i, it) =>
      (Response 200 (Deleted "Menu item deleted" it), delete i st)
  end.

(** The requests of the routes over the collection, as a route receives
    them: the path parameter decoded by the router, the body as
    [express.json()] has read it. *)
Inductive request :=
| GET_menu
| GET_menu_id (idp : string)
| POST_menu (b : gmap string value)
| PUT_menu_id (idp : string) (b : gmap string value)
| DELETE_menu_id (idp : string).

(** The routes (lines 136-195).  POST and PUT run the chains of
    [validateMenuItem] on the body, then [handleValidationErrors], then
    their handler on the body the chains have sanitized. *)
Definition handle (r : request) (st : store) : response * store :=
  match r with
  | GET_menu => get_menu st
  | GET_menu_id idp => get_menu_id idp st
  | POST_menu b =>
      let '(errors, b') := run_chains validateMenuItem b in
      handleValidationErrors errors (post_menu_handler b') st
  | PUT_menu_id idp b =>
      let '(errors, b') := run_chains validateMenuItem b in
      handleValidationErrors errors (put_menu_id_handler idp b') st
  | DELETE_menu_id idp => delete_menu_id idp st
  end.

(** The states the server can be in. *)
Inductive reachable : store -> Prop :=
| reachable_start : reachable menuItems
| reachable_step r st : reachable st -> reachable (handle r st).2.

(** Running a sequence of requests: the responses, and the last state. *)
Fixpoint run (rs : list request) (st : store) : list response * store :=
  match rs with
  | [] => ([], st)
  | r :: rest =>
      let '(resp, st1) := handle r st in
      let '(resps, st2) := run rest st1 in
      (resp :: resps, st2)
  end.

(** ** Example payloads *)

Definition iced_tea : gmap string value :=
  {[ "name" := VStr "Iced Tea";
     "description" := VStr "Cold brewed tea over ice";
     "price" := VNum (Dec 350 (-2));
     "category" := VStr "beverage";
     "ingredients" := VArr [VStr "tea"; VStr "ice"] ]}.

Definition all_wrong : gmap string value :=
  {[ "name" := VStr "ab";
     "description" := VStr "short";
     "price" := VNum (Dec (-1) 0);
     "category" := VStr "snack";
     "ingredients" := VArr [] ]}.

(** The iced tea as a client may send it: white space around the name,
    the price as a string. *)
Definition iced_tea_raw : gmap string value :=
  {[ "name" := VStr "  Iced Tea ";
     "description" := VStr "Cold brewed tea over ice";
     "price" := VStr "3.50";
     "category" := VStr "beverage";
     "ingredients" := VArr [VStr "tea"; VStr "ice"] ]}.

(** The iced tea with [available] sent as the string "true". *)
Definition iced_tea_text : gmap string value :=
  <["available" := VStr "true"]> iced_tea.

(** ** Vocabulary of the properties *)

(** *** Validation of a body *)

(** The errors of the request body [b], and the body as the chains leave
    it. *)
Definition errors_of (b : gmap string value) : list verror :=
  (run_chains validateMenuItem b).1.

Definition sanitized (b : gmap string value) : gmap string value :=
  (run_chains validateMenuItem b).2.

(** The errors of one chain on the value of its field, and the value it
    writes back. *)
Definition chain_errors (c : chain) (v : option value) : list verror :=
  match is_optional c, v with
  | true, None => []
  | _, _ => (run_stack (field c) (stack c) v).1
  end.

Definition chain_value (c : chain) (v : option value) : option value :=
  match is_optional c, v with
  | true, None => None
  | _, _ => (run_stack (field c) (stack c) v).2
  end.

(** The value [trim] leaves in place of [v]. *)
Definition trimmed (v : option value) : option value :=
  (run_item "" trim v).2.

(** The item built from the request body [b] as the client sent it, once
    the chains have passed: the two trimmed texts, the price as a number,
    the other properties as they came, [available] true when it was not
    sent. *)
Definition stored (n : Z) (b : gmap string value) : item :=
  {| id := n;
     name := trimmed (b !! "name");
     description := trimmed (b !! "description");
     price := parseFloat (b !! "price");
     category := b !! "category";
     ingredients := b !! "ingredients";
     available := default (VBool true) (b !! "available") |}.

Definition validation_failed (b : gmap string value) : response :=
  Response 400 (Failed "Validation failed" (errors_of b)).

(** *** Looking an item up *)

(** No item of the collection has the identifier the path parameter
    [idp] denotes. *)
Definition absent (idp : string) (st : store) : Prop :=
  Forall (fun it => ~ has_id idp it) st.

(** The item the handlers find for [idp]: the first one with that
    identifier, at index [i]. *)
Definition found (idp : string) (st : store) (i : nat) (it : item) : Prop :=
  list_find (has_id idp) st = Some (i, it).

(** A standard validator accepts [v]: the string of [v], or of each of its
    elements when [v] is an array. *)
Definition passes (validator : string -> bool) (v : option value) : Prop :=
  Forall (fun x => validator (toString x) = true) (wrap v).

(** *** JSON objects and their equality *)

(** Deep equality of JSON values: numbers by their value, arrays element
    by element, objects property by property. *)
#[local] Set Warnings "-register-all".
Inductive deep_equal : value -> value -> Prop :=
| deep_null : deep_equal VNull VNull
| deep_bool x : deep_equal (VBool x) (VBool x)
| deep_num m n : Num.normalize m = Num.normalize n -> deep_equal (VNum m) (VNum n)
| deep_str s : deep_equal (VStr s) (VStr s)
| deep_arr l1 l2 : Forall2 deep_equal l1 l2 -> deep_equal (VArr l1) (VArr l2)
| deep_obj o1 o2 :
    (forall k, option_Forall2 deep_equal (o1 !! k) (o2 !! k)) ->
    deep_equal (VObj o1) (VObj o2).
#[local] Set Warnings "register-all".
#[local] Set Warnings "register-all".

Definition set_property (k : string) (v : option value)
    (o : gmap string value) : gmap string value :=
  match v with
  | Some x => <[k := x]> o
  | None => o
  end.

(** The JSON object of an item, as [res.json] writes it: a property that
    is [undefined] is left out, a number that is not finite is [null]. *)
Definition item_json (it : item) : gmap string value :=
  <["id" := VNum (Num.of_Z (id it))]>
    (set_property "name" (name it)
      (set_property "description" (description it)
        (<["price" := match price it with Finite d => VNum d | _ => VNull end]>
          (set_property "category" (category it)
            (set_property "ingredients" (ingredients it)
              (<["available" := available it]> ∅)))))).

(** The candidate [b] extended with the identifier [n], and with
    [available] true when [b] has none. *)
Definition candidate_with (n : Z) (b : gmap string value) : gmap string value :=
  <["id" := VNum (Num.of_Z n)]>
    (match b !! "available" with
     | Some _ => b
     | None => <["available" := VBool true]> b
     end).

(** *** Path parameters *)

(** A path parameter that is a number in full: an optional sign, then
    decimal digits and nothing else. *)
Definition numeric (idp : string) : bool :=
  match Chars.span_digits 10 (Chars.strip_sign idp).2 with
  | (_ :: _, EmptyString) => true
  | _ => false
  end.

(** The properties of the body the routes read. *)
Definition body_fields : list string :=
  ["name"; "description"; "price"; "category"; "ingredients"; "available"].

(** Two bodies with the same values of these properties. *)
Definition same_fields (b b' : gmap string value) : Prop :=
  forall k, k ∈ body_fields -> b !! k = b' !! k.

(** *** The rules of the data model *)

(** The rules an item must satisfy: a name of at least 3 characters and a
    description of at least 10 once trimmed, a price that is a number
    above zero, one of the four categories, a non-empty array of
    ingredients, and a boolean [available]. *)
Definition well_formed (it : item) : Prop :=
  (exists s, name it = Some (VStr s) /\
             (3 <= String.length (Chars.trim s))%nat) /\
  (exists s, description it = Some (VStr s) /\
             (10 <= String.length (Chars.trim s))%nat) /\
  (exists d, price it = Finite d /\ 0 < mant d) /\
  (exists s, category it = Some (VStr s) /\
             s ∈ ["appetizer"; "entree"; "dessert"; "beverage"]) /\
  (exists l, ingredients it = Some (VArr l) /\ l <> []) /\
  (exists x, available it = VBool x).

(** The rules on the name, the description, the category and the
    ingredients. *)
Definition texts_well_formed (it : item) : Prop :=
  (exists s, name it = Some (VStr s) /\
             (3 <= String.length (Chars.trim s))%nat) /\
  (exists s, description it = Some (VStr s) /\
             (10 <= String.length (Chars.trim s))%nat) /\
  (exists s, category it = Some (VStr s) /\
             s ∈ ["appetizer"; "entree"; "dessert"; "beverage"]) /\
  (exists l, ingredients it = Some (VArr l) /\ l <> []).

(** ** Vocabulary of the further properties *)

(** The properties a body must have: all but [available]. *)
Definition required_fields : list string :=
  ["name"; "description"; "price"; "category"; "ingredients"].

(** A decimal that a double holds as a finite number other than zero:
    its absolute value is above 2^-1075, up to which a double rounds to
    zero, and below 2^1024 - 2^970, from which a double rounds to
    [Infinity]. *)
Definition in_double_range (d : decimal) : bool :=
  let m := Z.abs (mant d) in
  let e := expo d in
  if 0 <=? e then
    (0 <? m) && (m * 10 ^ e <? 2 ^ 1024 - 2 ^ 970)
  else
    (10 ^ (- e) <? m * 2 ^ 1075) && (m <? (2 ^ 1024 - 2 ^ 970) * 10 ^ (- e)).

(** The price of the body, as [parseFloat] reads it, is not a number above
    zero that a double rounds to zero or to [Infinity]. *)
Definition price_in_range (b : gmap string value) : bool :=
  match parseFloat (b !! "price") with
  | Finite d => (mant d <=? 0) || in_double_range d
  | _ => true
  end.

(** The price of an item is a finite number other than zero that a
    double holds as such. *)
Definition price_is_finite (it : item) : Prop :=
  exists d, price it = Finite d /\ in_double_range d = true.

(** A decimal of at most 15 significant digits, with an exponent between
    -307 and 293 once written without zero digits at its end, zero
    included.  A JSON literal of this kind is read as a double that
    [String] writes back with these very digits, so that [Num.to_string]
    is the string JavaScript gives, and [Num.parseFloat] of it the number
    JavaScript reads. *)
Definition short_decimal (d : decimal) : bool :=
  let n := Num.normalize d in
  (Z.abs (mant n) <? 10 ^ 15) && (-307 <=? expo n) && (expo n <=? 293).


(** An error, and a response, without the values the errors report. *)
Definition without_value (e : verror) : verror :=
  VError (type e) None (msg e) (path e) (location e).

Definition without_values (r : response) : response :=
  match json r with
  | Failed message errors =>
      Response (status r) (Failed message (without_value <$> errors))
  | _ => r
  end.


(** The name and the description of an item have no white space around
    them. *)
Definition texts_trimmed (it : item) : Prop :=
  (forall s, name it = Some (VStr s) -> Chars.trim s = s) /\
  (forall s, description it = Some (VStr s) -> Chars.trim s = s).

(** A chain reports at least one error on the value [v] of its field. *)
Definition rejects (c : chain) (v : option value) : Prop :=
  match chain_errors c v with
  | [] => False
  | _ => True
  end.


(** The digits of a decimal numeral, most significant first. *)
Fixpoint uint_digits (u : Decimal.uint) : list Z :=
  match u with
  | Decimal.Nil => []
  | Decimal.D0 u => 0 :: uint_digits u
  | Decimal.D1 u => 1 :: uint_digits u
  | Decimal.D2 u => 2 :: uint_digits u
  | Decimal.D3 u => 3 :: uint_digits u
  | Decimal.D4 u => 4 :: uint_digits u
  | Decimal.D5 u => 5 :: uint_digits u
  | Decimal.D6 u => 6 :: uint_digits u
  | Decimal.D7 u => 7 :: uint_digits u
  | Decimal.D8 u => 8 :: uint_digits u
  | Decimal.D9 u => 9 :: uint_digits u
  end.

(** * Properties *)

(** ** Numbers and strings on examples *)

Example parseFloat_3_50 : Num.parseFloat "3.50" = Finite (Dec 35 (-1)).
Proof. reflexivity. Qed.

Example parseFloat_exp : Num.parseFloat " -12.5e3xyz" = Finite (Dec (-125) 2).
Proof. reflexivity. Qed.

Example parseFloat_dot : Num.parseFloat ".e5" = NaN.
Proof. reflexivity. Qed.

Example to_string_1299 : Num.to_string (Dec 1299 (-2)) = "12.99".
Proof. reflexivity. Qed.

Example to_string_small : Num.to_string (Dec 15 (-8)) = "1.5e-7".
Proof. reflexivity. Qed.

Example to_string_neg : Num.to_string (Dec (-1) 0) = "-1".
Proof. reflexivity. Qed.

Example to_string_big : Num.to_string (Dec 1 21) = "1e+21".
Proof. reflexivity. Qed.

Example parseInt_prefix : Num.parseInt "12abc" = Some 12.
Proof. reflexivity. Qed.

Example parseInt_hex : Num.parseInt "0x1f" = Some 31.
Proof. reflexivity. Qed.

Example parseInt_nan : Num.parseInt "abc" = None.
Proof. reflexivity. Qed.

Example parseInt_space : Num.parseInt "  42" = Some 42.
Proof. reflexivity. Qed.

Example parseInt_fraction : Num.parseInt "1.5" = Some 1.
Proof. reflexivity. Qed.

Example trim_iced_tea : Chars.trim "  Iced Tea " = "Iced Tea".
Proof. reflexivity. Qed.

Example isFloat_text : Validator.isFloat_gt0 "3.50" = true.
Proof. reflexivity. Qed.

Example isFloat_zero : Validator.isFloat_gt0 "0" = false.
Proof. reflexivity. Qed.

Example isFloat_tail : Validator.isFloat_gt0 "12abc" = false.
Proof. reflexivity. Qed.

Example isBoolean_text :
  Validator.isBoolean "true" = true /\ Validator.isBoolean "yes" = false.
Proof. split; reflexivity. Qed.

Example toString_number : toString (Some (VNum (Dec 1 0))) = "1".
Proof. reflexivity. Qed.

Example toString_array :
  toString (Some (VArr [VNum (Dec 1 0); VNull; VNum (Dec 2 0)])) = "1,,2".
Proof. reflexivity. Qed.

(** A standard validator sees the elements of an array, and of an element
    that is an array the string of all its elements: the price [[1, 2]]
    is refused. *)
Example price_nested_array :
  errors_of (<["price" := VArr [VArr [VNum (Dec 1 0); VNum (Dec 2 0)]]]> iced_tea) =
  [ field_error "price" "Price must be a number greater than 0"
      (Some (VArr [VNum (Dec 1 0); VNum (Dec 2 0)])) ].
Proof. vm_compute. reflexivity. Qed.

(** The price "1e400" passes validation; it is outside the range of the
    doubles, which read it as [Infinity]. *)
Example price_1e400 :
  errors_of (<["price" := VStr "1e400"]> iced_tea) = [] /\
  price_in_range (<["price" := VStr "1e400"]> iced_tea) = false.
Proof. split; vm_compute; reflexivity. Qed.

Example iced_tea_created :
  (handle (POST_menu iced_tea) menuItems).1 =
  Response 201 (OneItem (Item 7 (Some (VStr "Iced Tea"))
    (Some (VStr "Cold brewed tea over ice")) (Finite (Dec 35 (-1)))
    (Some (VStr "beverage")) (strs ["tea"; "ice"]) (VBool true))).
Proof. vm_compute. reflexivity. Qed.

Example all_wrong_errors :
  (run_chains validateMenuItem all_wrong).1 =
  [ field_error "name" "Name must be at least 3 characters" (Some (VStr "ab"));
    field_error "description" "Description must be at least 10 characters"
      (Some (VStr "short"));
    field_error "price" "Price must be a number greater than 0"
      (Some (VNum (Dec (-1) 0)));
    field_error "category"
      "Category must be one of: appetizer, entree, dessert, beverage"
      (Some (VStr "snack"));
    field_error "ingredients" "Ingredients must be an array with at least 1 item"
      (Some (VArr [])) ].
Proof. vm_compute. reflexivity. Qed.

(** ** What the validation chains do *)

Section Chains.

Implicit Types (c : chain) (cs : list chain) (b : gmap string value).
Implicit Types (v : option value) (k : string).

Lemma run_stack_None p items v :
  (run_stack p items v).2 = None -> v = None.
Proof.
  revert v. induction items as [|it rest IH]; intros v; simpl; [done|].
  destruct (run_item p it v) as [e1 v1] eqn:E1.
  destruct (run_stack p rest v1) as [e2 v2] eqn:E2. simpl. intros ->.
  assert (v1 = None) as -> by (apply IH; by rewrite E2).
  destruct it; simpl in E1; by inversion E1.
Qed.

Lemma run_stack_path p items v :
  Forall (fun e => path e = p) (run_stack p items v).1.
Proof.
  revert v. induction items as [|it rest IH]; intros v; simpl; [constructor|].
  destruct (run_item p it v) as [e1 v1] eqn:E1.
  specialize (IH v1). destruct (run_stack p rest v1) as [e2 v2]. simpl in *.
  apply Forall_app. split; [|done].
  destruct it as [f m|f m|f]; simpl in E1; injection E1 as <- <-.
  - destruct (f v); repeat constructor.
  - apply Forall_flat_map, Forall_forall. intros x _.
    destruct (f (toString x)); repeat constructor.
  - constructor.
Qed.

Lemma run_chain_errors c b :
  (run_chain c b).1 = chain_errors c (b !! field c).
Proof.
  unfold run_chain, chain_errors.
  destruct (is_optional c), (b !! field c);
    try reflexivity; by destruct (run_stack _ _ _).
Qed.

Lemma run_chain_lookup c b :
  (run_chain c b).2 !! field c = chain_value c (b !! field c).
Proof.
  unfold run_chain, chain_value.
  assert (H := run_stack_None (field c) (stack c) (b !! field c)).
  destruct (is_optional c), (b !! field c) as [x|] eqn:Hb; try done;
    destruct (run_stack _ _ _) as [es [y|]]; simpl in *;
    rewrite ?lookup_insert_eq; try done; by specialize (H eq_refl).
Qed.

Lemma run_chain_lookup_ne c b k :
  k <> field c -> (run_chain c b).2 !! k = b !! k.
Proof.
  intros Hk. unfold run_chain.
  destruct (is_optional c), (b !! field c); try done;
    destruct (run_stack _ _ _) as [es [y|]]; simpl; try done;
    by rewrite lookup_insert_ne.
Qed.

(** The errors of a list of chains over distinct fields: the errors of
    each chain on the value its field has in the request, one chain
    after the other.  No chain hides the errors of another. *)
Lemma run_chains_errors cs b :
  NoDup (field <$> cs) ->
  (run_chains cs b).1 = flat_map (fun c => chain_errors c (b !! field c)) cs.
Proof.
  revert b. induction cs as [|c rest IH]; intros b Hnd; [done|].
  apply NoDup_cons in Hnd as [Hc Hnd]. simpl.
  destruct (run_chain c b) as [e1 b1] eqn:E1.
  specialize (IH b1 Hnd). destruct (run_chains rest b1) as [e2 b2]. simpl in *.
  rewrite IH. f_equal.
  - by rewrite <- run_chain_errors, E1.
  - rewrite !flat_map_concat_map. f_equal. apply map_ext_in. intros c' Hc'.
    assert (field c' <> field c) as Hne.
    { intros Heq. apply Hc. rewrite <- Heq. apply list_elem_of_fmap.
      exists c'. split; [done|]. by apply list_elem_of_In. }
    assert (H := run_chain_lookup_ne c b _ Hne). rewrite E1 in H.
    simpl in H. by rewrite H.
Qed.

Lemma run_chains_lookup_ne cs b k :
  k ∉ field <$> cs -> (run_chains cs b).2 !! k = b !! k.
Proof.
  revert b. induction cs as [|c rest IH]; intros b Hk; [done|].
  rewrite fmap_cons in Hk. apply not_elem_of_cons in Hk as [Hc Hk]. simpl.
  destruct (run_chain c b) as [e1 b1] eqn:E1.
  specialize (IH b1 Hk). destruct (run_chains rest b1) as [e2 b2]. simpl in *.
  rewrite IH. assert (H := run_chain_lookup_ne c b k Hc). by rewrite E1 in H.
Qed.

(** The value a field has after the chains: what its own chain wrote. *)
Lemma run_chains_lookup cs c b :
  NoDup (field <$> cs) -> c ∈ cs ->
  (run_chains cs b).2 !! field c = chain_value c (b !! field c).
Proof.
  revert b. induction cs as [|c0 rest IH]; intros b Hnd Hin.
  { by apply elem_of_nil in Hin. }
  apply NoDup_cons in Hnd as [Hc Hnd]. simpl.
  destruct (run_chain c0 b) as [e1 b1] eqn:E1.
  destruct (run_chains rest b1) as [e2 b2] eqn:E2. simpl.
  apply elem_of_cons in Hin as [->|Hin].
  - assert (H := run_chains_lookup_ne rest b1 _ Hc). rewrite E2 in H.
    simpl in H. rewrite H.
    assert (H1 := run_chain_lookup c0 b). by rewrite E1 in H1.
  - assert (field c <> field c0) as Hne.
    { intros Heq. apply Hc. rewrite <- Heq. apply list_elem_of_fmap. eauto. }
    specialize (IH b1 Hnd Hin). rewrite E2 in IH. simpl in IH. rewrite IH.
    assert (H := run_chain_lookup_ne c0 b _ Hne). rewrite E1 in H.
    simpl in H. by rewrite H.
Qed.

End Chains.

Section ValidateMenuItem.

Implicit Types (b : gmap string value) (st : store).

Lemma validateMenuItem_fields :
  field <$> validateMenuItem =
  ["name"; "description"; "price"; "category"; "ingredients"; "available"].
Proof. reflexivity. Qed.

Lemma validateMenuItem_NoDup : NoDup (field <$> validateMenuItem).
Proof.
  rewrite validateMenuItem_fields.
  apply (bool_decide_unpack _). by vm_compute.
Qed.

Lemma errors_of_chains b :
  errors_of b =
  flat_map (fun c => chain_errors c (b !! field c)) validateMenuItem.
Proof. apply run_chains_errors, validateMenuItem_NoDup. Qed.

Lemma sanitized_other b k :
  k ∉ ["name"; "description"; "price"; "category"; "ingredients"; "available"] ->
  sanitized b !! k = b !! k.
Proof.
  intros Hk. apply run_chains_lookup_ne. by rewrite validateMenuItem_fields.
Qed.

Lemma sanitized_field b c :
  c ∈ validateMenuItem ->
  sanitized b !! field c = chain_value c (b !! field c).
Proof. apply run_chains_lookup, validateMenuItem_NoDup. Qed.

Ltac chain_lookup n :=
  match goal with
  | |- sanitized ?b !! _ = _ =>
      let c := eval cbv [validateMenuItem lookup list_lookup] in
                 (validateMenuItem !! n) in
      match c with
      | Some ?c' =>
          let H := fresh in
          assert (H := sanitized_field b c');
          cbn [field] in H; rewrite H; clear H;
          [ unfold chain_value, trimmed;
            cbn [is_optional field stack run_stack];
            try (destruct (b !! _) as [[]|]; reflexivity)
          | unfold validateMenuItem; repeat constructor ]
      end
  end.

Lemma sanitized_name b : sanitized b !! "name" = trimmed (b !! "name").
Proof. chain_lookup 0%nat. Qed.

Lemma sanitized_description b :
  sanitized b !! "description" = trimmed (b !! "description").
Proof. chain_lookup 1%nat. Qed.

Lemma sanitized_price b : sanitized b !! "price" = b !! "price".
Proof. chain_lookup 2%nat. Qed.

Lemma sanitized_category b : sanitized b !! "category" = b !! "category".
Proof. chain_lookup 3%nat. Qed.

Lemma sanitized_ingredients b :
  sanitized b !! "ingredients" = b !! "ingredients".
Proof. chain_lookup 4%nat. Qed.

Lemma sanitized_available b : sanitized b !! "available" = b !! "available".
Proof. chain_lookup 5%nat. Qed.

End ValidateMenuItem.

(** ** The routes behind the validation middleware *)

Section Middleware.

Implicit Types (b : gmap string value) (st : store) (idp : string).

Lemma errors_stop b (next : gmap string value -> store -> response * store) st :
  errors_of b <> [] ->
  (let '(errors, b') := run_chains validateMenuItem b in
   handleValidationErrors errors (next b') st) = (validation_failed b, st).
Proof.
  unfold handleValidationErrors, validation_failed, errors_of.
  destruct (run_chains validateMenuItem b) as [[|e es] b']; simpl; [done|].
  reflexivity.
Qed.

Lemma no_error_next b (next : gmap string value -> store -> response * store) st :
  errors_of b = [] ->
  (let '(errors, b') := run_chains validateMenuItem b in
   handleValidationErrors errors (next b') st) = next (sanitized b) st.
Proof.
  unfold handleValidationErrors, sanitized, errors_of.
  destruct (run_chains validateMenuItem b) as [[|e es] b']; simpl; [|done].
  reflexivity.
Qed.

Lemma post_handler_sanitized b st :
  post_menu_handler (sanitized b) st =
  (Response 201 (OneItem (stored (new_id st) b)), st ++ [stored (new_id st) b]).
Proof.
  unfold post_menu_handler, stored.
  by rewrite sanitized_name, sanitized_description, sanitized_price,
    sanitized_category, sanitized_ingredients, sanitized_available.
Qed.

Lemma put_handler_sanitized idp b st :
  put_menu_id_handler idp (sanitized b) st =
  match list_find (has_id idp) st with
  | None => (not_found, st)
  | Some (i, it) =>
      (Response 200 (OneItem (stored (id it) b)), <[i := stored (id it) b]> st)
  end.
Proof.
  unfold put_menu_id_handler, stored.
  by rewrite sanitized_name, sanitized_description, sanitized_price,
    sanitized_category, sanitized_ingredients, sanitized_available.
Qed.

Lemma post_valid b st :
  errors_of b = [] ->
  handle (POST_menu b) st =
  (Response 201 (OneItem (stored (new_id st) b)), st ++ [stored (new_id st) b]).
Proof.
  intros H. unfold handle.
  by rewrite (no_error_next b post_menu_handler), post_handler_sanitized.
Qed.

Lemma post_invalid b st :
  errors_of b <> [] -> handle (POST_menu b) st = (validation_failed b, st).
Proof. intros H. unfold handle. by rewrite (errors_stop b post_menu_handler). Qed.

Lemma put_valid idp b st :
  errors_of b = [] ->
  handle (PUT_menu_id idp b) st =
  match list_find (has_id idp) st with
  | None => (not_found, st)
  | Some (i, it) =>
      (Response 200 (OneItem (stored (id it) b)), <[i := stored (id it) b]> st)
  end.
Proof.
  intros H. unfold handle.
  by rewrite (no_error_next b (put_menu_id_handler idp)), put_handler_sanitized.
Qed.

Lemma put_invalid idp b st :
  errors_of b <> [] ->
  handle (PUT_menu_id idp b) st = (validation_failed b, st).
Proof.
  intros H. unfold handle. by rewrite (errors_stop b (put_menu_id_handler idp)).
Qed.

End Middleware.

(** ** Identifiers *)

Section Ids.

Implicit Types (st : store) (it : item) (idp : string).

Lemma foldl_max_ge (x : Z) (l : list Z) :
  x <= foldl Z.max x l /\ Forall (fun y => y <= foldl Z.max x l) l.
Proof.
  revert x. induction l as [|y l IH]; intros x; simpl.
  - split; [lia|constructor].
  - destruct (IH (Z.max x y)) as [H1 H2]. split; [lia|].
    constructor; [lia|done].
Qed.

Lemma foldl_max_in (x : Z) (l : list Z) : foldl Z.max x l ∈ x :: l.
Proof.
  revert x. induction l as [|y l IH]; intros x; simpl; [set_solver|].
  specialize (IH (Z.max x y)).
  apply elem_of_cons in IH as [H|H]; [|set_solver].
  rewrite H. destruct (Z.max_spec x y) as [[_ ->]|[_ ->]]; set_solver.
Qed.

(** The identifier of a new item is above every identifier in use. *)
Lemma new_id_above st it : it ∈ st -> id it < new_id st.
Proof.
  intros Hin. unfold new_id.
  assert (id it ∈ id <$> st) as H by (apply list_elem_of_fmap; eauto).
  destruct (id <$> st) as [|x l]; [by apply elem_of_nil in H|].
  destruct (foldl_max_ge x l) as [H1 H2].
  apply elem_of_cons in H as [->|H]; [lia|].
  rewrite Forall_forall in H2. specialize (H2 _ H). lia.
Qed.

(** It is one more than an identifier in use, unless there is none. *)
Lemma new_id_succ st :
  st <> [] -> exists it, it ∈ st /\ new_id st = id it + 1.
Proof.
  intros Hne. unfold new_id.
  destruct (id <$> st) as [|x l] eqn:E.
  { by apply fmap_nil_inv in E. }
  assert (H := foldl_max_in x l). rewrite <- E in H.
  apply list_elem_of_fmap in H as (it & Hit & Hin).
  exists it. split; [done|]. by rewrite Hit.
Qed.

Lemma new_id_nil : new_id [] = 1.
Proof. reflexivity. Qed.

Lemma new_id_not_found st idp :
  Num.parseInt idp = Some (new_id st) -> list_find (has_id idp) st = None.
Proof.
  intros Hp. apply list_find_None, Forall_forall. intros it Hin.
  unfold has_id. rewrite Hp. intros [= Heq].
  apply new_id_above in Hin. lia.
Qed.

End Ids.

(** ** Looking an item up *)

Lemma absent_find idp st : absent idp st <-> list_find (has_id idp) st = None.
Proof. unfold absent. by rewrite list_find_None. Qed.

Lemma parseInt_NaN_absent idp st : Num.parseInt idp = None -> absent idp st.
Proof.
  intros H. apply Forall_forall. intros it _. unfold has_id. by rewrite H.
Qed.

(** ** Update of an identifier that is not there *)

(** C1, as stated, fails: on the initial collection, which has no item 99,
    PUT /api/menu/99 with a body that fails validation answers 400
    "Validation failed", not 404. *)
Lemma update_absent_invalid_not_404 :
  absent "99" menuItems /\
  (handle (PUT_menu_id "99" all_wrong) menuItems).1 <> not_found /\
  status (handle (PUT_menu_id "99" all_wrong) menuItems).1 = 400.
Proof.
  split; [|split].
  - apply (bool_decide_unpack _). by vm_compute.
  - by vm_compute.
  - by vm_compute.
Qed.

(** C1, amended: for every body and every identifier that is not in the
    collection, PUT leaves the collection as it was; it answers 404 when
    the body passes validation, and 400 with the validation errors when it
    does not (validation runs before the lookup). *)
Theorem update_absent_id b idp st :
  absent idp st ->
  (handle (PUT_menu_id idp b) st).2 = st /\
  (errors_of b = [] -> (handle (PUT_menu_id idp b) st).1 = not_found) /\
  (errors_of b <> [] -> (handle (PUT_menu_id idp b) st).1 = validation_failed b).
Proof.
  intros Habs%absent_find.
  destruct (decide (errors_of b = [])) as [Hv|Hv].
  - rewrite (put_valid _ _ _ Hv), Habs. by repeat split.
  - rewrite (put_invalid _ _ _ Hv). by repeat split.
Qed.

Lemma update_absent_id_witness :
  (handle (PUT_menu_id "99" iced_tea) menuItems).2 = menuItems /\
  (errors_of iced_tea = [] ->
   (handle (PUT_menu_id "99" iced_tea) menuItems).1 = not_found) /\
  (errors_of iced_tea <> [] ->
   (handle (PUT_menu_id "99" iced_tea) menuItems).1 = validation_failed iced_tea).
Proof.
  apply (update_absent_id iced_tea "99" menuItems).
  apply (bool_decide_unpack _). vm_compute. exact I.
Defined.

(** ** Identifier of a new item *)

(** C2: a body that passes validation is answered 201 with a new item
    appended to the collection; its identifier is 1 on the empty
    collection, and otherwise one more than an identifier in use and above
    all of them, that is, the maximum plus one.  On the initial collection
    (identifiers 1 to 6) after DELETE /api/menu/6, the new item is given
    the identifier 6 again. *)
Theorem insert_assigns_max_plus_one b st :
  errors_of b = [] ->
  (exists it,
     handle (POST_menu b) st = (Response 201 (OneItem it), st ++ [it]) /\
     (st = [] -> id it = 1) /\
     (st <> [] -> exists x, x ∈ st /\ id it = id x + 1) /\
     (forall x, x ∈ st -> id x < id it)) /\
  id <$> menuItems = [1; 2; 3; 4; 5; 6] /\
  (let st1 := (handle (DELETE_menu_id "6") menuItems).2 in
   id <$> st1 = [1; 2; 3; 4; 5] /\
   handle (POST_menu b) st1 =
   (Response 201 (OneItem (stored 6 b)), st1 ++ [stored 6 b])).
Proof.
  intros Hv. split; [|split; [reflexivity|split; [reflexivity|]]].
  - exists (stored (new_id st) b). rewrite (post_valid _ _ Hv).
    split; [done|]. simpl. split; [by intros ->|]. split.
    + apply new_id_succ.
    + intros x. apply new_id_above.
  - by rewrite (post_valid _ _ Hv).
Qed.

Lemma iced_tea_valid : errors_of iced_tea = [].
Proof. by vm_compute. Qed.

Lemma all_wrong_invalid : errors_of all_wrong <> [].
Proof. by vm_compute. Qed.

Lemma insert_assigns_max_plus_one_witness :
  exists it,
    handle (POST_menu iced_tea) menuItems =
    (Response 201 (OneItem it), menuItems ++ [it]) /\
    (menuItems = [] -> id it = 1) /\
    (menuItems <> [] -> exists x, x ∈ menuItems /\ id it = id x + 1) /\
    (forall x, x ∈ menuItems -> id x < id it).
Proof.
  apply (insert_assigns_max_plus_one iced_tea menuItems).
  vm_compute. reflexivity.
Defined.

(** ** Update with a body that fails validation *)

(** C6: when the body fails validation, PUT on an identifier that is in
    the collection answers 400 "Validation failed" with the errors, and the
    collection, so also the item with that identifier and each of its
    properties, stays as it was. *)
Theorem update_invalid_atomic b idp st i it :
  found idp st i it ->
  errors_of b <> [] ->
  handle (PUT_menu_id idp b) st = (validation_failed b, st) /\
  status (validation_failed b) = 400 /\
  found idp (handle (PUT_menu_id idp b) st).2 i it.
Proof.
  intros Hf Hv. rewrite (put_invalid _ _ _ Hv). by repeat split.
Qed.

Lemma update_invalid_atomic_witness :
  handle (PUT_menu_id "3" all_wrong) menuItems =
  (validation_failed all_wrong, menuItems).
Proof.
  refine (proj1 (update_invalid_atomic all_wrong "3" menuItems 2
            (Item 3 (Some (VStr "Mozzarella Sticks"))
               (Some (VStr "Crispy breaded mozzarella served with marinara sauce"))
               (Finite (Dec 899 (-2))) (Some (VStr "appetizer"))
               (strs ["mozzarella cheese"; "breadcrumbs"; "marinara sauce"])
               (VBool true)) _ _)).
  - vm_compute. reflexivity.
  - vm_compute. discriminate.
Defined.

(** ** What a body that passes validation holds *)

Section Valid.

Implicit Types (b : gmap string value).

Lemma errors_split b :
  errors_of b = [] ->
  Forall (fun c => chain_errors c (b !! field c) = []) validateMenuItem.
Proof.
  rewrite errors_of_chains. generalize validateMenuItem.
  induction l as [|c l IH]; simpl; [constructor|].
  intros [H1 H2]%app_eq_nil. constructor; auto.
Qed.

Ltac chain_facts H n :=
  apply errors_split in H; unfold validateMenuItem in H;
  apply Forall_lookup_1 with (i := n) (x := ltac:(
    match type of H with Forall _ ?l =>
      let c := eval cbv [lookup list_lookup] in (l !! n) in
      match c with Some ?c' => exact c' end
    end)) in H; [|reflexivity];
  unfold chain_errors in H;
  cbn [is_optional field stack run_stack fst snd] in H.

Ltac item_facts H :=
  cbn [run_item isString trim isLength_min isIn isArray_min isFloat_gt0
       isBoolean fst snd app flat_map wrap map toString
       jsString] in H;
  try discriminate H.

Lemma valid_name b :
  errors_of b = [] ->
  exists s, b !! "name" = Some (VStr s) /\
            (3 <= String.length (Chars.trim s))%nat.
Proof.
  intros H. chain_facts H 0%nat.
  destruct (b !! "name") as [[]|]; item_facts H.
  eexists. split; [done|].
  destruct (Validator.isLength _ _) eqn:E; [|done].
  by apply bool_decide_eq_true in E.
Qed.

Lemma valid_description b :
  errors_of b = [] ->
  exists s, b !! "description" = Some (VStr s) /\
            (10 <= String.length (Chars.trim s))%nat.
Proof.
  intros H. chain_facts H 1%nat.
  destruct (b !! "description") as [[]|]; item_facts H.
  eexists. split; [done|].
  destruct (Validator.isLength _ _) eqn:E; [|done].
  by apply bool_decide_eq_true in E.
Qed.

Lemma valid_category b :
  errors_of b = [] ->
  exists s, b !! "category" = Some (VStr s) /\
            s ∈ ["appetizer"; "entree"; "dessert"; "beverage"].
Proof.
  intros H. chain_facts H 3%nat.
  destruct (b !! "category") as [[]|]; item_facts H.
  eexists. split; [done|].
  destruct (Validator.isIn _ _) eqn:E; [|done].
  by apply bool_decide_eq_true in E.
Qed.

Lemma valid_ingredients b :
  errors_of b = [] ->
  exists l, b !! "ingredients" = Some (VArr l) /\ (1 <= length l)%nat.
Proof.
  intros H. chain_facts H 4%nat.
  destruct (b !! "ingredients") as [[]|]; item_facts H.
  eexists. split; [done|].
  destruct (bool_decide _) eqn:E; [|done].
  by apply bool_decide_eq_true in E.
Qed.

Lemma standard_passes p f m v :
  (run_item p (standard f m) v).1 = [] -> passes f v.
Proof.
  unfold passes. simpl. generalize (wrap v).
  induction l as [|x l IH]; simpl; [constructor|].
  intros [H1 H2]%app_eq_nil. constructor; [|auto].
  by destruct (f (toString x)).
Qed.

Lemma valid_price b :
  errors_of b = [] -> passes Validator.isFloat_gt0 (b !! "price").
Proof.
  intros H. chain_facts H 2%nat.
  destruct (run_item _ _ _) as [e v] eqn:E. simpl in H.
  apply app_eq_nil in H as [-> _].
  eapply standard_passes. unfold isFloat_gt0 in E. by rewrite E.
Qed.

Lemma valid_available b :
  errors_of b = [] ->
  b !! "available" = None \/ passes Validator.isBoolean (b !! "available").
Proof.
  intros H. chain_facts H 5%nat.
  destruct (b !! "available") as [a|]; [right|by left].
  destruct (run_item _ _ _) as [e v] eqn:E. simpl in H.
  apply app_eq_nil in H as [-> _].
  eapply standard_passes. unfold isBoolean in E. by rewrite E.
Qed.

End Valid.

(** ** Insert, then get *)

(** C4, as stated, fails: [iced_tea_raw] passes validation and is given
    the identifier 7, and GET /api/menu/7 then returns an item whose name
    is "Iced Tea" and whose price is the number 3.5; it is not deep-equal
    to the candidate with [id] and [available] added, whose name is
    "  Iced Tea " and whose price is the string "3.50". *)
Lemma insert_get_not_deep_equal :
  errors_of iced_tea_raw = [] /\
  exists it,
    (handle (GET_menu_id "7") (handle (POST_menu iced_tea_raw) menuItems).2).1 =
    Response 200 (OneItem it) /\
    id it = 7 /\
    name it = Some (VStr "Iced Tea") /\
    price it = Finite (Dec 35 (-1)) /\
    ~ deep_equal (VObj (item_json it)) (VObj (candidate_with 7 iced_tea_raw)).
Proof.
  split; [by vm_compute|].
  eexists. split; [vm_compute; reflexivity|].
  split; [done|]. split; [done|]. split; [done|].
  intros H. inversion H as [| | | | |o1 o2 Hk]; subst.
  specialize (Hk "name"). vm_compute in Hk.
  inversion Hk as [x y Hxy|]; subst. inversion Hxy.
Qed.

(** C4, amended: for every candidate that passes validation, POST answers
    201 with the new item, and GET on the identifier assigned answers 200
    with the same item: the identifier, the name and the description of the
    candidate without the white space around them, the price read by
    [parseFloat], the category and the ingredients of the candidate, and
    its [available], or true when it has none.  No other property of the
    candidate is part of the item. *)
Theorem insert_then_get b st idp :
  errors_of b = [] ->
  Num.parseInt idp = Some (new_id st) ->
  exists s d,
    b !! "name" = Some (VStr s) /\
    b !! "description" = Some (VStr d) /\
    let it :=
      {| id := new_id st;
         name := Some (VStr (Chars.trim s));
         description := Some (VStr (Chars.trim d));
         price := parseFloat (b !! "price");
         category := b !! "category";
         ingredients := b !! "ingredients";
         available := default (VBool true) (b !! "available") |} in
    (handle (POST_menu b) st).1 = Response 201 (OneItem it) /\
    (handle (GET_menu_id idp) (handle (POST_menu b) st).2).1 =
    Response 200 (OneItem it).
Proof.
  intros Hv Hp.
  destruct (valid_name b Hv) as (s & Hs & _).
  destruct (valid_description b Hv) as (d & Hd & _).
  exists s, d. split; [done|]. split; [done|].
  rewrite (post_valid _ _ Hv). unfold stored. rewrite Hs, Hd. simpl.
  split; [reflexivity|]. unfold get_menu_id.
  rewrite list_find_app_r by (by apply new_id_not_found).
  simpl. rewrite decide_True by (by unfold has_id; simpl).
  reflexivity.
Qed.

Lemma insert_then_get_witness :
  exists it,
    (handle (GET_menu_id "7") (handle (POST_menu iced_tea_raw) menuItems).2).1 =
    Response 200 (OneItem it).
Proof.
  destruct (insert_then_get iced_tea_raw menuItems "7") as (s & d & _ & _ & _ & H).
  - vm_compute. reflexivity.
  - vm_compute. reflexivity.
  - eexists. exact H.
Defined.

(** ** Validation reports every violation *)

(** C5: the errors of a request are the errors of every chain on the value
    of its own field, chain after chain in the order of [validateMenuItem]:
    an error found by one chain is in the list whatever the other fields
    hold.  On the candidate with the name "ab", the description "short",
    the price -1, the category "snack" and no ingredient, the list has
    five entries, one for each rule broken, each with the value that
    broke it; on the empty body, a field that breaks two rules has two
    entries (the second one of a text with the empty string the
    sanitizer [trim] has put in place of [undefined]). *)
Theorem validate_collects_all b :
  errors_of b =
    flat_map (fun c => chain_errors c (b !! field c)) validateMenuItem /\
  (forall c e, c ∈ validateMenuItem ->
     e ∈ chain_errors c (b !! field c) -> e ∈ errors_of b /\ path e = field c) /\
  errors_of all_wrong =
    [ field_error "name" "Name must be at least 3 characters" (Some (VStr "ab"));
      field_error "description" "Description must be at least 10 characters"
        (Some (VStr "short"));
      field_error "price" "Price must be a number greater than 0"
        (Some (VNum (Dec (-1) 0)));
      field_error "category"
        "Category must be one of: appetizer, entree, dessert, beverage"
        (Some (VStr "snack"));
      field_error "ingredients" "Ingredients must be an array with at least 1 item"
        (Some (VArr [])) ] /\
  (5 <= length (errors_of all_wrong))%nat /\
  (handle (POST_menu all_wrong) menuItems).1 =
    Response 400 (Failed "Validation failed" (errors_of all_wrong)) /\
  errors_of ∅ =
    [ field_error "name" "Name must be a string" None;
      field_error "name" "Name must be at least 3 characters" (Some (VStr ""));
      field_error "description" "Description must be a string" None;
      field_error "description" "Description must be at least 10 characters"
        (Some (VStr ""));
      field_error "price" "Price must be a number greater than 0" None;
      field_error "category" "Category must be a string" None;
      field_error "category"
        "Category must be one of: appetizer, entree, dessert, beverage" None;
      field_error "ingredients" "Ingredients must be an array with at least 1 item"
        None ].
Proof.
  split; [apply errors_of_chains|]. split.
  - intros c e Hc He. split.
    + rewrite errors_of_chains. apply list_elem_of_In, in_flat_map.
      exists c. split; by apply list_elem_of_In.
    + unfold chain_errors in He.
      assert (H := run_stack_path (field c) (stack c) (b !! field c)).
      rewrite Forall_forall in H.
      destruct (is_optional c), (b !! field c); try by apply H.
      by apply elem_of_nil in He.
  - split; [by vm_compute|]. split; [by vm_compute|].
    split; by vm_compute.
Qed.

Lemma validate_collects_all_witness :
  field_error "price" "Price must be a number greater than 0"
    (Some (VNum (Dec (-1) 0))) ∈ errors_of all_wrong.
Proof.
  refine (proj1 (proj1 (proj2 (validate_collects_all all_wrong))
    (body "price" false [ isFloat_gt0 "Price must be a number greater than 0" ])
    (field_error "price" "Price must be a number greater than 0"
       (Some (VNum (Dec (-1) 0)))) _ _)).
  - unfold validateMenuItem. do 2 apply list_elem_of_further.
    apply list_elem_of_here.
  - vm_compute. apply list_elem_of_here.
Defined.

(** ** Path parameters that are not numbers *)

Section Numeric.

Import Chars.

Lemma digit_not_space c d : digit_value 10 c = Some d -> is_space c = false.
Proof.
  unfold digit_value, is_space. generalize (code c). intros n.
  destruct (48 <=? n) eqn:E1, (n <=? 57) eqn:E2; simpl;
    destruct (97 <=? n) eqn:E3, (n <=? 122) eqn:E4; simpl;
    destruct (65 <=? n) eqn:E5, (n <=? 90) eqn:E6; simpl;
    try discriminate;
    destruct (9 <=? n) eqn:E7, (n <=? 13) eqn:E8, (n =? 32) eqn:E9,
      (n =? 160) eqn:E10; simpl; try reflexivity; try lia;
    try (destruct (_ <? 10) eqn:E11; [|discriminate]; lia).
Qed.

Lemma radix_10 c0 r0 d :
  digit_value 10 c0 = Some d ->
  (exists ds, span_digits 10 r0 = (ds, "")) ->
  match String c0 r0 with
  | String "0" (String c r) =>
      if (code c =? 120) || (code c =? 88) then (16, r) else (10, String c0 r0)
  | _ => (10, String c0 r0)
  end = (10, String c0 r0).
Proof.
  intros Hd [ds Hds].
  destruct r0 as [|c r].
  { by destruct c0 as [[] [] [] [] [] [] [] []]. }
  assert ((code c =? 120) || (code c =? 88) = false) as Hx.
  { simpl in Hds. unfold digit_value in Hds. revert Hds. generalize (code c).
    intros n. destruct (n =? 120) eqn:E1; [apply Z.eqb_eq in E1; subst; discriminate|].
    destruct (n =? 88) eqn:E2; [apply Z.eqb_eq in E2; subst; discriminate|]. done. }
  rewrite Hx. by destruct c0 as [[] [] [] [] [] [] [] []].
Qed.

Lemma strip_sign_cases c r :
  (c = "-"%char /\ strip_sign (String c r) = (true, r)) \/
  (c = "+"%char /\ strip_sign (String c r) = (false, r)) \/
  (strip_sign (String c r) = (false, String c r)).
Proof. destruct c as [[] [] [] [] [] [] [] []]; auto. Qed.

Lemma parseInt_digits (neg : bool) s d ds :
  span_digits 10 s = (d :: ds, "") ->
  exists n,
    (let '(radix, s2) :=
       match s with
       | String "0" (String c r) =>
           if (code c =? 120) || (code c =? 88) then (16, r) else (10, s)
       | _ => (10, s)
       end in
     match span_digits radix s2 with
     | ([], _) => None
     | (ds, _) =>
         let v := digits_value radix ds in Some (if neg then - v else v)
     end) = Some n.
Proof.
  intros Hs. destruct s as [|c0 r0]; [discriminate|].
  pose proof Hs as Hs'. simpl in Hs'.
  destruct (digit_value 10 c0) as [d0|] eqn:Hd; [|discriminate].
  destruct (span_digits 10 r0) as [ds0 rest] eqn:Hr. injection Hs' as _ _ ->.
  rewrite (radix_10 c0 r0 d0 Hd) by eauto. rewrite Hs. eauto.
Qed.

(** A parameter that is a number in full denotes an integer. *)
Lemma numeric_parseInt idp :
  numeric idp = true -> exists n, Num.parseInt idp = Some n.
Proof.
  unfold numeric, Num.parseInt. destruct idp as [|c r]; [discriminate|].
  intros H.
  assert (is_space c = false) as Hc.
  { destruct (strip_sign_cases c r) as [[-> _]|[[-> _]|E]]; [done..|].
    rewrite E in H. simpl in H.
    destruct (digit_value 10 c) eqn:Hd; [|discriminate].
    by eapply digit_not_space. }
  simpl ltrim. rewrite Hc.
  destruct (strip_sign (String c r)) as [neg s] eqn:E. simpl in H.
  destruct (span_digits 10 s) as [[|d ds] [|]] eqn:Hs; try discriminate.
  apply (parseInt_digits neg s d ds Hs).
Qed.

End Numeric.

(** C7, as stated, fails: "1abc" is not a number, and yet GET
    /api/menu/1abc answers 200 with the item 1, and DELETE /api/menu/1abc
    removes it: [parseInt] reads the digits the parameter starts with. *)
Lemma non_numeric_id_found :
  numeric "1abc" = false /\
  (exists it, (handle (GET_menu_id "1abc") menuItems).1 = Response 200 (OneItem it)
              /\ id it = 1) /\
  status (handle (DELETE_menu_id "1abc") menuItems).1 = 200 /\
  id <$> (handle (DELETE_menu_id "1abc") menuItems).2 = [2; 3; 4; 5; 6].
Proof.
  split; [reflexivity|]. split; [|split; by vm_compute].
  eexists. split; [vm_compute; reflexivity|reflexivity].
Qed.

(** C7, amended: for every path parameter on which [parseInt] yields NaN,
    GET and DELETE answer 404 "Menu item not found", and PUT answers 404
    when the body passes validation and 400 with the errors when it does
    not; the collection is left as it was, and each of the three routes
    answers exactly as it does for any identifier that is not in the
    collection.  Every such parameter is not numeric. *)
Theorem nan_id_not_found idp st :
  Num.parseInt idp = None ->
  numeric idp = false /\
  handle (GET_menu_id idp) st = (not_found, st) /\
  handle (DELETE_menu_id idp) st = (not_found, st) /\
  (forall b, errors_of b = [] -> handle (PUT_menu_id idp b) st = (not_found, st)) /\
  (forall b, errors_of b <> [] ->
     handle (PUT_menu_id idp b) st = (validation_failed b, st)) /\
  (forall idp' b, absent idp' st ->
     handle (GET_menu_id idp) st = handle (GET_menu_id idp') st /\
     handle (DELETE_menu_id idp) st = handle (DELETE_menu_id idp') st /\
     handle (PUT_menu_id idp b) st = handle (PUT_menu_id idp' b) st).
Proof.
  intros Hnan.
  assert (Hnone : list_find (has_id idp) st = None)
    by (by apply absent_find, parseInt_NaN_absent).
  assert (Hget : handle (GET_menu_id idp) st = (not_found, st))
    by (simpl; unfold get_menu_id; by rewrite Hnone).
  assert (Hdel : handle (DELETE_menu_id idp) st = (not_found, st))
    by (simpl; unfold delete_menu_id; by rewrite Hnone).
  split.
  { destruct (numeric idp) eqn:Hnum; [|done].
    apply numeric_parseInt in Hnum as [n Hn]. congruence. }
  split; [done|]. split; [done|]. split; [|split].
  - intros b Hv. by rewrite (put_valid _ _ _ Hv), Hnone.
  - intros b Hv. by apply put_invalid.
  - intros idp' b Habs%absent_find. rewrite Hget, Hdel.
    split; [simpl; unfold get_menu_id; by rewrite Habs|].
    split; [simpl; unfold delete_menu_id; by rewrite Habs|].
    destruct (decide (errors_of b = [])) as [Hv|Hv].
    + rewrite !(put_valid _ _ _ Hv). by rewrite Hnone, Habs.
    + by rewrite !(put_invalid _ _ _ Hv).
Qed.

Lemma nan_id_not_found_witness :
  handle (GET_menu_id "abc") menuItems = (not_found, menuItems) /\
  handle (DELETE_menu_id "abc") menuItems = (not_found, menuItems).
Proof.
  destruct (nan_id_not_found "abc" menuItems) as (_ & H1 & H2 & _).
  - vm_compute. reflexivity.
  - split; [exact H1|exact H2].
Defined.

(** ** Order of the collection *)

(** C8: GET /api/menu answers with the whole collection in its order; a
    new item, made from the body, is put at the end; an update that
    succeeds puts the item made from the body, with the identifier of the
    item found, where that item stands, and leaves the length and every
    other position as they were; a deletion that succeeds takes exactly
    the item found out of the sequence, what precedes it and what follows
    it staying as they were, identifiers included. *)
Theorem order_is_kept st :
  handle GET_menu st = (Response 200 (Items st), st) /\
  (forall b, errors_of b = [] ->
     exists it,
       handle (POST_menu b) st = (Response 201 (OneItem it), st ++ [it]) /\
       it = stored (new_id st) b) /\
  (forall idp b i it, errors_of b = [] -> found idp st i it ->
     exists it',
       handle (PUT_menu_id idp b) st =
         (Response 200 (OneItem it'), <[i := it']> st) /\
       it' = stored (id it) b /\
       id it' = id it /\
       length (<[i := it']> st) = length st /\
       <[i := it']> st !! i = Some it' /\
       (forall j, j <> i -> <[i := it']> st !! j = st !! j) /\
       id <$> <[i := it']> st = id <$> st) /\
  (forall idp i it, found idp st i it ->
     handle (DELETE_menu_id idp) st =
       (Response 200 (Deleted "Menu item deleted" it),
        take i st ++ drop (S i) st) /\
     st = take i st ++ it :: drop (S i) st /\
     S (length (take i st ++ drop (S i) st)) = length st).
Proof.
  split; [reflexivity|]. split; [|split].
  - intros b Hv. rewrite (post_valid _ _ Hv). eauto.
  - intros idp b i it Hv Hf. unfold found in Hf.
    pose proof Hf as (Hi & _ & _)%list_find_Some.
    exists (stored (id it) b). rewrite (put_valid _ _ _ Hv), Hf.
    split; [done|]. split; [done|]. split; [done|].
    split; [apply length_insert|].
    split; [apply list_lookup_insert_eq; by eapply lookup_lt_Some|].
    split; [intros j Hj; by apply list_lookup_insert_ne|].
    rewrite list_fmap_insert. apply list_insert_id.
    by rewrite list_lookup_fmap, Hi.
  - intros idp i it Hf. unfold found in Hf.
    pose proof Hf as (Hi & _ & _)%list_find_Some.
    simpl. unfold delete_menu_id. rewrite Hf, delete_take_drop.
    split; [done|]. split.
    + by rewrite <- (take_drop_middle st i it) at 1.
    + rewrite <- (take_drop_middle st i it Hi) at 3.
      rewrite !length_app. simpl. lia.
Qed.

Lemma order_is_kept_witness :
  exists it',
    handle (PUT_menu_id "3" iced_tea) menuItems =
      (Response 200 (OneItem it'), <[2%nat := it']> menuItems) /\
    it' = stored 3 iced_tea /\
    id <$> <[2%nat := it']> menuItems = [1; 2; 3; 4; 5; 6].
Proof.
  destruct (proj1 (proj2 (proj2 (order_is_kept menuItems))) "3" iced_tea 2%nat
    (Item 3 (Some (VStr "Mozzarella Sticks"))
       (Some (VStr "Crispy breaded mozzarella served with marinara sauce"))
       (Finite (Dec 899 (-2))) (Some (VStr "appetizer"))
       (strs ["mozzarella cheese"; "breadcrumbs"; "marinara sauce"])
       (VBool true)))
    as (it' & H1 & H2 & _ & _ & _ & _ & H3).
  - vm_compute. reflexivity.
  - vm_compute. reflexivity.
  - exists it'. split; [exact H1|]. split; [exact H2|exact H3].
Defined.

(** ** Identifiers are not shared *)

Section Unique.

Implicit Types (st : store) (it : item) (idp : string) (r : request).

Lemma post_ids b st :
  errors_of b = [] ->
  id <$> (handle (POST_menu b) st).2 = (id <$> st) ++ [new_id st].
Proof. intros Hv. rewrite (post_valid _ _ Hv). simpl. by rewrite fmap_app. Qed.

(** PUT never changes an identifier. *)
Lemma put_ids idp b st : id <$> (handle (PUT_menu_id idp b) st).2 = id <$> st.
Proof.
  destruct (decide (errors_of b = [])) as [Hv|Hv].
  - rewrite (put_valid _ _ _ Hv).
    destruct (list_find _ _) as [[i it]|] eqn:Hf; [|done].
    apply list_find_Some in Hf as (Hi & _ & _). simpl.
    rewrite list_fmap_insert. apply list_insert_id.
    by rewrite list_lookup_fmap, Hi.
  - by rewrite (put_invalid _ _ _ Hv).
Qed.

Lemma delete_ids idp st :
  id <$> (handle (DELETE_menu_id idp) st).2 =
  match list_find (has_id idp) st with
  | Some (i, _) => delete i (id <$> st)
  | None => id <$> st
  end.
Proof.
  simpl. unfold delete_menu_id.
  destruct (list_find _ _) as [[i it]|]; [|done]. simpl.
  apply list_fmap_delete.
Qed.

(** The identifiers of a state are those of the state before, but for
    one taken out by DELETE or one added at the end by POST. *)
Lemma step_NoDup r st :
  NoDup (id <$> st) -> NoDup (id <$> (handle r st).2).
Proof.
  intros Hnd. destruct r as [|idp|b|idp b|idp].
  - done.
  - simpl. unfold get_menu_id. by destruct (list_find _ _) as [[]|].
  - destruct (decide (errors_of b = [])) as [Hv|Hv].
    + rewrite (post_ids _ _ Hv). apply NoDup_app. split; [done|].
      split; [|apply NoDup_singleton].
      intros x Hx ->%list_elem_of_singleton.
      apply list_elem_of_fmap in Hx as (it & Hit & Hin).
      apply new_id_above in Hin. lia.
    + by rewrite (post_invalid _ _ Hv).
  - by rewrite put_ids.
  - rewrite delete_ids. destruct (list_find _ _) as [[i it]|]; [|done].
    eapply sublist_NoDup; [done|apply sublist_delete].
Qed.

(** In every state the server can be in, no two items have the same
    identifier. *)
Lemma reachable_NoDup st : reachable st -> NoDup (id <$> st).
Proof.
  induction 1 as [|r st _ IH].
  - apply (bool_decide_unpack _). by vm_compute.
  - by apply step_NoDup.
Qed.

Lemma absent_delete idp st i it :
  NoDup (id <$> st) -> found idp st i it -> absent idp (delete i st).
Proof.
  intros Hnd Hf. apply list_find_Some in Hf as (Hi & Hid & _).
  apply Forall_forall. intros x Hx Hxid.
  apply list_elem_of_lookup in Hx as [j Hj].
  assert (id x = id it) as Heq.
  { unfold has_id in *. rewrite <- Hid in Hxid. by injection Hxid. }
  rewrite NoDup_alt in Hnd.
  destruct (decide (j < i)%nat) as [Hlt|Hge].
  - rewrite list_lookup_delete_lt in Hj by done.
    assert (j = i); [|lia].
    apply (Hnd j i (id x)); rewrite list_lookup_fmap.
    + by rewrite Hj.
    + by rewrite Hi, Heq.
  - rewrite list_lookup_delete_ge in Hj by lia.
    assert (S j = i); [|lia].
    apply (Hnd (S j) i (id x)); rewrite list_lookup_fmap.
    + by rewrite Hj.
    + by rewrite Hi, Heq.
Qed.

(** An identifier stays out of the collection as long as no POST creates
    an item with it. *)
Lemma absent_step idp r st :
  absent idp st ->
  (forall x, (handle r st).1 = Response 201 (OneItem x) -> ~ has_id idp x) ->
  absent idp (handle r st).2.
Proof.
  intros Habs Hnew. destruct r as [|idp'|b|idp' b|idp'].
  - done.
  - simpl. unfold get_menu_id. by destruct (list_find _ _) as [[]|].
  - destruct (decide (errors_of b = [])) as [Hv|Hv].
    + rewrite (post_valid _ _ Hv) in *. simpl in *.
      apply Forall_app. split; [done|]. constructor; [|constructor].
      by apply Hnew.
    + by rewrite (post_invalid _ _ Hv).
  - destruct (decide (errors_of b = [])) as [Hv|Hv].
    + rewrite (put_valid _ _ _ Hv).
      destruct (list_find _ _) as [[i it]|] eqn:Hf; [|done]. simpl.
      apply list_find_Some in Hf as (Hi & _ & _).
      apply Forall_insert; [done|].
      unfold absent in Habs. rewrite Forall_forall in Habs.
      apply (Habs it). by eapply list_elem_of_lookup_2.
    + by rewrite (put_invalid _ _ _ Hv).
  - simpl. unfold delete_menu_id.
    destruct (list_find _ _) as [[i it]|]; [|done]. simpl.
    by apply Forall_delete.
Qed.

Lemma absent_run idp rs st :
  absent idp st ->
  (forall x, Response 201 (OneItem x) ∈ (run rs st).1 -> ~ has_id idp x) ->
  absent idp (run rs st).2.
Proof.
  revert st. induction rs as [|r rs IH]; intros st Habs Hnew; [done|].
  simpl in *. destruct (handle r st) as [resp st1] eqn:E.
  specialize (IH st1). destruct (run rs st1) as [resps st2]. simpl in *.
  apply IH.
  - assert (H := absent_step idp r st Habs). rewrite E in H. apply H.
    simpl. intros x ->. apply Hnew. apply list_elem_of_here.
  - intros x Hx. apply Hnew. by apply list_elem_of_further.
Qed.

End Unique.

(** ** Delete, then get *)

Lemma found_unique idp (st : store) it :
  NoDup (id <$> st) -> it ∈ st -> has_id idp it -> exists i, found idp st i it.
Proof.
  intros Hnd Hin Hid.
  destruct (list_find_elem_of (has_id idp) st it Hin Hid) as [[i it'] Hf].
  exists i. unfold found. rewrite Hf. do 2 f_equal.
  apply list_find_Some in Hf as (Hi & Hid' & _).
  apply list_elem_of_lookup in Hin as [j Hj].
  assert (id it' = id it) as Heq.
  { unfold has_id in *. rewrite <- Hid in Hid'. by injection Hid'. }
  rewrite NoDup_alt in Hnd.
  assert (i = j) as ->; [|congruence].
  apply (Hnd i j (id it)); rewrite list_lookup_fmap.
  - rewrite Hi. simpl. by rewrite Heq.
  - by rewrite Hj.
Qed.

(** C9: in a state the server can be in, DELETE on the identifier of an
    item of the collection answers 200 with the message "Menu item
    deleted" and that item, and takes it out; after that, and after any
    further requests none of which is a POST that creates an item with
    this identifier, GET on the identifier answers 404. *)
Theorem delete_then_get idp st it :
  reachable st ->
  it ∈ st ->
  has_id idp it ->
  exists i,
    st !! i = Some it /\
    handle (DELETE_menu_id idp) st =
      (Response 200 (Deleted "Menu item deleted" it), delete i st) /\
    forall rs idp',
      Num.parseInt idp' = Num.parseInt idp ->
      (forall x, Response 201 (OneItem x) ∈ (run rs (delete i st)).1 ->
                 ~ has_id idp x) ->
      handle (GET_menu_id idp') (run rs (delete i st)).2 =
        (not_found, (run rs (delete i st)).2).
Proof.
  intros Hr%reachable_NoDup Hin Hid.
  destruct (found_unique idp st it Hr Hin Hid) as [i Hf].
  exists i. pose proof Hf as (Hi & _ & _)%list_find_Some.
  split; [done|]. split.
  { simpl. unfold delete_menu_id. unfold found in Hf. by rewrite Hf. }
  intros rs idp' Hp Hnew.
  assert (Habs : absent idp (run rs (delete i st)).2).
  { apply absent_run; [|done]. by eapply absent_delete. }
  assert (Habs' : absent idp' (run rs (delete i st)).2).
  { unfold absent, has_id in *. by rewrite Hp. }
  apply absent_find in Habs'. simpl. unfold get_menu_id. by rewrite Habs'.
Qed.

Lemma delete_then_get_witness :
  exists i,
    menuItems !! i =
      Some (Item 6 (Some (VStr "Fish and Chips"))
        (Some (VStr "Beer-battered cod with seasoned fries and coleslaw"))
        (Finite (Dec 1499 (-2))) (Some (VStr "entree"))
        (strs ["cod"; "beer batter"; "potatoes"; "coleslaw"; "tartar sauce"])
        (VBool false)) /\
    status (handle (DELETE_menu_id "6") menuItems).1 = 200.
Proof.
  destruct (delete_then_get "6" menuItems
    (Item 6 (Some (VStr "Fish and Chips"))
       (Some (VStr "Beer-battered cod with seasoned fries and coleslaw"))
       (Finite (Dec 1499 (-2))) (Some (VStr "entree"))
       (strs ["cod"; "beer batter"; "potatoes"; "coleslaw"; "tartar sauce"])
       (VBool false))) as (i & H1 & H2 & _).
  - apply reachable_start.
  - unfold menuItems. do 5 apply list_elem_of_further. apply list_elem_of_here.
  - vm_compute. reflexivity.
  - exists i. split; [exact H1|]. rewrite H2. reflexivity.
Defined.

(** ** Properties of the body that are not item properties *)

Section Frame.

Implicit Types (b : gmap string value) (st : store) (k : string).

Lemma same_fields_insert b k v : k ∉ body_fields -> same_fields (<[k := v]> b) b.
Proof. intros Hk k' Hk'. apply lookup_insert_ne. by intros ->. Qed.

Lemma errors_of_same_fields b b' :
  same_fields b b' -> errors_of b = errors_of b'.
Proof.
  intros Hs. rewrite !errors_of_chains, !flat_map_concat_map. f_equal.
  apply map_ext_in. intros c Hc. rewrite Hs; [done|].
  unfold body_fields. rewrite <- validateMenuItem_fields.
  apply list_elem_of_fmap. exists c. split; [done|]. by apply list_elem_of_In.
Qed.

Lemma stored_same_fields n b b' : same_fields b b' -> stored n b = stored n b'.
Proof.
  intros Hs. unfold stored.
  rewrite !(Hs "name"), !(Hs "description"), !(Hs "price"), !(Hs "category"),
    !(Hs "ingredients"), !(Hs "available");
    [done|apply (bool_decide_unpack _); by vm_compute..].
Qed.

Lemma post_same_fields b b' st :
  same_fields b b' -> handle (POST_menu b) st = handle (POST_menu b') st.
Proof.
  intros Hs. assert (He := errors_of_same_fields _ _ Hs).
  destruct (decide (errors_of b = [])) as [Hv|Hv].
  - rewrite !post_valid by congruence. by rewrite (stored_same_fields _ _ _ Hs).
  - rewrite !post_invalid by congruence. unfold validation_failed. by rewrite He.
Qed.

Lemma put_same_fields idp b b' st :
  same_fields b b' ->
  handle (PUT_menu_id idp b) st = handle (PUT_menu_id idp b') st.
Proof.
  intros Hs. assert (He := errors_of_same_fields _ _ Hs).
  destruct (decide (errors_of b = [])) as [Hv|Hv].
  - rewrite !put_valid by congruence.
    destruct (list_find _ _) as [[i it]|]; [|done].
    by rewrite (stored_same_fields _ _ _ Hs).
  - rewrite !put_invalid by congruence. unfold validation_failed. by rewrite He.
Qed.

End Frame.

Lemma set_property_lookup k v (o : gmap string value) k' x :
  set_property k v o !! k' = Some x -> k' = k \/ o !! k' = Some x.
Proof.
  unfold set_property. destruct v as [y|]; [|by right].
  intros [[<- _]|[_ H]]%lookup_insert_Some; [by left|by right].
Qed.

Lemma item_json_keys it k x :
  item_json it !! k = Some x -> k ∈ "id" :: body_fields.
Proof.
  unfold item_json, body_fields. intros H.
  apply (set_property_lookup _ (Some _)) in H as [->|H];
    [apply list_elem_of_here|apply list_elem_of_further].
  apply set_property_lookup in H as [->|H];
    [apply list_elem_of_here|apply list_elem_of_further].
  apply set_property_lookup in H as [->|H];
    [apply list_elem_of_here|apply list_elem_of_further].
  apply (set_property_lookup _ (Some _)) in H as [->|H];
    [apply list_elem_of_here|apply list_elem_of_further].
  apply set_property_lookup in H as [->|H];
    [apply list_elem_of_here|apply list_elem_of_further].
  apply set_property_lookup in H as [->|H];
    [apply list_elem_of_here|apply list_elem_of_further].
  apply (set_property_lookup _ (Some _)) in H as [->|H];
    [apply list_elem_of_here|].
  by rewrite lookup_empty in H.
Qed.

(** C10: POST and PUT read nothing of the body but [name], [description],
    [price], [category], [ingredients] and [available]: two bodies with
    the same values of these six get the same answer and leave the same
    collection, so a property added to a body, whatever its name, changes
    nothing and is not stored.  This holds of a property [id]: POST gives
    the new item the identifier it computes, and PUT leaves every
    identifier of the collection as it was.  The JSON object of an item
    has no property but [id] and these six. *)
Theorem only_known_fields_kept b b' v idp st :
  same_fields b b' ->
  handle (POST_menu b) st = handle (POST_menu b') st /\
  handle (PUT_menu_id idp b) st = handle (PUT_menu_id idp b') st /\
  (forall k, k ∉ body_fields ->
     handle (POST_menu (<[k := v]> b)) st = handle (POST_menu b) st /\
     handle (PUT_menu_id idp (<[k := v]> b)) st = handle (PUT_menu_id idp b) st) /\
  handle (POST_menu (<["id" := v]> b)) st = handle (POST_menu b) st /\
  handle (PUT_menu_id idp (<["id" := v]> b)) st = handle (PUT_menu_id idp b) st /\
  (errors_of b = [] ->
   exists it, handle (POST_menu (<["id" := v]> b)) st =
                (Response 201 (OneItem it), st ++ [it]) /\
              id it = new_id st) /\
  id <$> (handle (PUT_menu_id idp (<["id" := v]> b)) st).2 = id <$> st /\
  (forall it k, is_Some (item_json it !! k) -> k ∈ "id" :: body_fields).
Proof.
  assert (Hid : "id" ∉ body_fields)
    by (apply (bool_decide_unpack _); by vm_compute).
  intros Hs. split; [by apply post_same_fields|].
  split; [by apply put_same_fields|]. split.
  { intros k Hk. split.
    - by apply post_same_fields, same_fields_insert.
    - by apply put_same_fields, same_fields_insert. }
  split; [by apply post_same_fields, same_fields_insert|].
  split; [by apply put_same_fields, same_fields_insert|]. split; [|split].
  - intros Hv.
    rewrite (post_same_fields _ b) by (by apply same_fields_insert).
    rewrite (post_valid _ _ Hv). eauto.
  - apply put_ids.
  - intros it k [x Hx]. by eapply item_json_keys.
Qed.

Lemma only_known_fields_kept_witness :
  handle (POST_menu (<["note" := VStr "extra"]> iced_tea)) menuItems =
  handle (POST_menu iced_tea) menuItems.
Proof.
  refine (proj1 (only_known_fields_kept (<["note" := VStr "extra"]> iced_tea)
                   iced_tea VNull "1" menuItems _)).
  intros k Hk. apply lookup_insert_ne. intros <-. revert Hk.
  apply (bool_decide_unpack _). vm_compute. exact I.
Defined.

(** ** The rules of the data model on stored items *)

Lemma menuItems_well_formed : Forall well_formed menuItems.
Proof.
  unfold menuItems.
  repeat (apply List.Forall_cons;
    [ (split; [eexists; split; [reflexivity|vm_compute; lia]|]);
      (split; [eexists; split; [reflexivity|vm_compute; lia]|]);
      (split; [eexists; split; [reflexivity|reflexivity]|]);
      (split; [eexists; split; [reflexivity|
                                apply (bool_decide_unpack _); by vm_compute]|]);
      (split; [eexists; split; [reflexivity|discriminate]|]);
      eexists; reflexivity | ]).
  apply List.Forall_nil.
Qed.

(** C3 does not hold of the code: every item of the initial collection
    satisfies the rules, but the body [iced_tea_text] passes validation
    ([isBoolean] accepts the string "true"), and POST stores the string as
    it is: the state reached has an item whose [available] is not a
    boolean. *)
Theorem available_text_is_stored :
  Forall well_formed menuItems /\
  errors_of iced_tea_text = [] /\
  reachable (handle (POST_menu iced_tea_text) menuItems).2 /\
  exists it,
    (handle (POST_menu iced_tea_text) menuItems).1 = Response 201 (OneItem it) /\
    it ∈ (handle (POST_menu iced_tea_text) menuItems).2 /\
    available it = VStr "true" /\
    ~ well_formed it.
Proof.
  split; [apply menuItems_well_formed|].
  assert (Hv : errors_of iced_tea_text = []) by (by vm_compute).
  split; [done|]. split; [apply reachable_step, reachable_start|].
  rewrite (post_valid _ _ Hv). eexists. split; [reflexivity|].
  split; [apply elem_of_app; right; apply list_elem_of_here|].
  split; [by vm_compute|].
  intros (_ & _ & _ & _ & _ & [x Hx]). vm_compute in Hx. discriminate Hx.
Qed.

(** *** The rules that do hold in every state *)

Section Trim.

Import Chars.

Lemma rtrim_cons c r :
  is_space c = false -> rtrim (String c r) = String c (rtrim r).
Proof. intros Hc. simpl. destruct (rtrim r); by rewrite ?Hc. Qed.

Lemma rtrim_unfold c r :
  rtrim (String c r) =
  match rtrim r with
  | EmptyString => if is_space c then EmptyString else String c EmptyString
  | r' => String c r'
  end.
Proof. reflexivity. Qed.

Lemma rtrim_rtrim s : rtrim (rtrim s) = rtrim s.
Proof.
  induction s as [|c s IH]; [done|]. rewrite rtrim_unfold.
  destruct (rtrim s) as [|c' r'] eqn:E.
  - destruct (is_space c) eqn:Hc; [done|]. by rewrite rtrim_unfold, Hc.
  - by rewrite rtrim_unfold, IH.
Qed.

Lemma ltrim_head s :
  ltrim s = "" \/ exists c r, ltrim s = String c r /\ is_space c = false.
Proof.
  induction s as [|c s IH]; [by left|]. simpl.
  destruct (is_space c) eqn:Hc; [done|]. right. by exists c, s.
Qed.

(** Trimming a trimmed string changes nothing. *)
Lemma trim_trim s : Chars.trim (Chars.trim s) = Chars.trim s.
Proof.
  unfold Chars.trim. destruct (ltrim_head s) as [->|(c & r & -> & Hc)]; [done|].
  rewrite (rtrim_cons _ _ Hc). simpl ltrim. rewrite Hc.
  by rewrite (rtrim_cons _ _ Hc), rtrim_rtrim.
Qed.

End Trim.

Lemma stored_texts_well_formed n b :
  errors_of b = [] -> texts_well_formed (stored n b).
Proof.
  intros Hv.
  destruct (valid_name b Hv) as (s & Hs & Hls).
  destruct (valid_description b Hv) as (d & Hd & Hld).
  destruct (valid_category b Hv) as (c & Hc & Hin).
  destruct (valid_ingredients b Hv) as (l & Hl & Hlen).
  unfold texts_well_formed, stored. simpl. rewrite Hs, Hd, Hc, Hl.
  repeat split.
  - exists (Chars.trim s). by rewrite trim_trim.
  - exists (Chars.trim d). by rewrite trim_trim.
  - by exists c.
  - exists l. split; [done|]. intros ->. simpl in Hlen. lia.
Qed.

(** In every state the server can be in, every item satisfies the rules
    on its name, description, category and ingredients. *)
Lemma reachable_texts_well_formed st :
  reachable st -> Forall texts_well_formed st.
Proof.
  induction 1 as [|r st _ IH].
  - eapply Forall_impl; [apply menuItems_well_formed|].
    intros it (H1 & H2 & _ & H4 & H5 & _). by repeat split.
  - destruct r as [|idp|b|idp b|idp].
    + done.
    + simpl. unfold get_menu_id. by destruct (list_find _ _) as [[]|].
    + destruct (decide (errors_of b = [])) as [Hv|Hv].
      * rewrite (post_valid _ _ Hv). simpl. apply Forall_app. split; [done|].
        constructor; [|constructor]. by apply stored_texts_well_formed.
      * by rewrite (post_invalid _ _ Hv).
    + destruct (decide (errors_of b = [])) as [Hv|Hv].
      * rewrite (put_valid _ _ _ Hv).
        destruct (list_find _ _) as [[i it]|]; [|done]. simpl.
        apply Forall_insert; [done|]. by apply stored_texts_well_formed.
      * by rewrite (put_invalid _ _ _ Hv).
    + simpl. unfold delete_menu_id.
      destruct (list_find _ _) as [[i it]|]; [|done]. simpl.
      by apply Forall_delete.
Qed.

(** *** The price of a stored item *)

Section Price.

Import Chars.

Lemma is_prefix_Infinity s :
  Num.is_prefix "Infinity" s = true -> exists r, s = String "I" r.
Proof.
  unfold Num.is_prefix. destruct s as [|c r]; [discriminate|].
  simpl. destruct (Ascii.eqb_spec c "I") as [->|Hc]; [eauto|done].
Qed.




End Price.



(** * Further properties *)

(** ** Identifiers in the states the server can be in *)

(** X1: in every state the server can be in, two different positions of
    the collection never hold the same identifier. *)
Theorem ids_pairwise_distinct st i j x y :
  reachable st ->
  st !! i = Some x -> st !! j = Some y -> i <> j -> id x <> id y.
Proof.
  intros Hr%reachable_NoDup Hi Hj Hne Heq. apply Hne.
  rewrite NoDup_alt in Hr.
  apply (Hr i j (id x)); rewrite list_lookup_fmap.
  - by rewrite Hi.
  - rewrite Hj. simpl. by rewrite Heq.
Qed.

Lemma ids_pairwise_distinct_witness :
  id (stored 3 iced_tea) <> id (stored 7 iced_tea).
Proof.
  apply (ids_pairwise_distinct
           (handle (POST_menu iced_tea) (handle (PUT_menu_id "3" iced_tea) menuItems).2).2
           2 6 (stored 3 iced_tea) (stored 7 iced_tea)).
  - apply reachable_step, reachable_step, reachable_start.
  - vm_compute. reflexivity.
  - vm_compute. reflexivity.
  - discriminate.
Defined.

Section Positive.

Implicit Types (st : store) (r : request).

Lemma new_id_positive st : Forall (fun it => 1 <= id it) st -> 1 <= new_id st.
Proof.
  intros Hpos. destruct st as [|x st']; [by rewrite new_id_nil|].
  destruct (new_id_succ (x :: st')) as (it & Hin & ->); [done|].
  rewrite Forall_forall in Hpos. specialize (Hpos it Hin). lia.
Qed.

Lemma step_positive r st :
  Forall (fun it => 1 <= id it) st ->
  Forall (fun it => 1 <= id it) (handle r st).2.
Proof.
  intros Hpos. destruct r as [|idp|b|idp b|idp].
  - done.
  - simpl. unfold get_menu_id. by destruct (list_find _ _) as [[]|].
  - destruct (decide (errors_of b = [])) as [Hv|Hv].
    + rewrite (post_valid _ _ Hv). simpl. apply Forall_app. split; [done|].
      constructor; [|constructor]. simpl. by apply new_id_positive.
    + by rewrite (post_invalid _ _ Hv).
  - destruct (decide (errors_of b = [])) as [Hv|Hv].
    + rewrite (put_valid _ _ _ Hv).
      destruct (list_find _ _) as [[i it]|] eqn:Hf; [|done]. simpl.
      apply list_find_Some in Hf as (Hi & _ & _).
      apply Forall_insert; [done|]. simpl.
      rewrite Forall_forall in Hpos. apply Hpos.
      by eapply list_elem_of_lookup_2.
    + by rewrite (put_invalid _ _ _ Hv).
  - simpl. unfold delete_menu_id.
    destruct (list_find _ _) as [[i it]|]; [|done]. simpl.
    by apply Forall_delete.
Qed.

Lemma reachable_positive st : reachable st -> Forall (fun it => 1 <= id it) st.
Proof.
  induction 1 as [|r st _ IH].
  - apply (bool_decide_unpack _). by vm_compute.
  - by apply step_positive.
Qed.

End Positive.

(** X2: in every state the server can be in, every identifier is at least
    1, and so is the identifier the next POST would assign; a path
    parameter that denotes zero or a negative integer is answered 404 by
    GET and by DELETE. *)
Theorem ids_are_positive st :
  reachable st ->
  Forall (fun it => 1 <= id it) st /\
  1 <= new_id st /\
  (forall idp n, Num.parseInt idp = Some n -> n <= 0 ->
     handle (GET_menu_id idp) st = (not_found, st) /\
     handle (DELETE_menu_id idp) st = (not_found, st)).
Proof.
  intros Hpos%reachable_positive. split; [done|].
  split; [by apply new_id_positive|].
  intros idp n Hp Hn.
  assert (list_find (has_id idp) st = None) as Hnone.
  { apply list_find_None. eapply Forall_impl; [exact Hpos|].
    intros it Hit. unfold has_id. rewrite Hp. intros [= Heq]. simpl in Hit. lia. }
  simpl. unfold get_menu_id, delete_menu_id. by rewrite Hnone.
Qed.

Lemma ids_are_positive_witness :
  handle (GET_menu_id "0") menuItems = (not_found, menuItems) /\
  handle (DELETE_menu_id "0") menuItems = (not_found, menuItems).
Proof.
  refine (proj2 (proj2 (ids_are_positive menuItems reachable_start)) "0" 0 _ _).
  - vm_compute. reflexivity.
  - vm_compute. discriminate.
Defined.


(** ** Requests that fail *)

(** X3: of a request that reaches one of the five routes of the
    collection, the answer has the status 200, 201, 400 or 404; an answer
    400 or 404 comes with the collection as it was, and so does every
    answer of the two GET routes.  Of these routes only POST answers 201,
    and only POST and PUT answer 400, with the errors of the validation
    middleware; an answer 404 is "Menu item not found". *)
Theorem failure_leaves_collection r st :
  status (handle r st).1 ∈ [200; 201; 400; 404] /\
  (status (handle r st).1 = 400 \/ status (handle r st).1 = 404 ->
   (handle r st).2 = st) /\
  (r = GET_menu \/ (exists idp, r = GET_menu_id idp) -> (handle r st).2 = st) /\
  (status (handle r st).1 = 201 -> exists b, r = POST_menu b) /\
  (status (handle r st).1 = 400 ->
   exists b, (r = POST_menu b \/ exists idp, r = PUT_menu_id idp b) /\
             errors_of b <> [] /\ (handle r st).1 = validation_failed b) /\
  (status (handle r st).1 = 404 -> (handle r st).1 = not_found).
Proof.
  destruct r as [|idp|b|idp b|idp].
  - simpl. split; [set_solver|]. split; [done|]. split; [done|].
    repeat split; intros [=].
  - simpl. unfold get_menu_id.
    destruct (list_find _ _) as [[i it]|]; simpl;
      (split; [set_solver|]); (split; [done|]); (split; [done|]);
      repeat split; (done || intros [=]).
  - destruct (decide (errors_of b = [])) as [Hv|Hv].
    + rewrite (post_valid _ _ Hv). simpl. split; [set_solver|].
      split; [by intros [[=]|[=]]|]. split; [by intros [[=]|[? [=]]]|].
      split; [eauto|]. split; intros [=].
    + rewrite (post_invalid _ _ Hv). simpl. split; [set_solver|].
      split; [done|]. split; [done|]. split; [intros [=]|].
      split; [|intros [=]]. intros _. exists b. eauto.
  - destruct (decide (errors_of b = [])) as [Hv|Hv].
    + rewrite (put_valid _ _ _ Hv).
      destruct (list_find _ _) as [[i it]|]; simpl;
        (split; [set_solver|]).
      * split; [by intros [[=]|[=]]|]. split; [by intros [[=]|[? [=]]]|].
        repeat split; intros [=].
      * split; [done|]. split; [done|]. repeat split; (done || intros [=]).
    + rewrite (put_invalid _ _ _ Hv). simpl. split; [set_solver|].
      split; [done|]. split; [done|]. split; [intros [=]|].
      split; [|intros [=]]. intros _. exists b. eauto.
  - simpl. unfold delete_menu_id.
    destruct (list_find _ _) as [[i it]|]; simpl;
      (split; [set_solver|]).
    + split; [by intros [[=]|[=]]|]. split; [by intros [[=]|[? [=]]]|].
      repeat split; intros [=].
    + split; [done|]. split; [done|]. repeat split; (done || intros [=]).
Qed.

Lemma failure_leaves_collection_witness :
  (handle (DELETE_menu_id "99") menuItems).2 = menuItems.
Proof.
  refine (proj1 (proj2 (failure_leaves_collection (DELETE_menu_id "99") menuItems)) _).
  right. vm_compute. reflexivity.
Defined.

(** ** How the routes compose *)

Section Compose.

Implicit Types (st : store) (it : item) (idp : string).
Implicit Types (b : gmap string value).

(** The item found for [idp] is still the one found once it is replaced
    by an item with the same identifier. *)
Lemma found_insert idp st i it it' :
  found idp st i it -> id it' = id it -> found idp (<[i := it']> st) i it'.
Proof.
  unfold found. intros (Hi & Hid & Hlt)%list_find_Some Heq.
  apply list_find_Some. split; [|split].
  - apply list_lookup_insert_eq. by eapply lookup_lt_Some.
  - unfold has_id in *. by rewrite Heq.
  - intros j y Hj Hji. rewrite list_lookup_insert_ne in Hj by lia. eauto.
Qed.

Lemma absent_insert idp st i it' :
  absent idp st -> ~ has_id idp it' -> absent idp (<[i := it']> st).
Proof. intros. by apply Forall_insert. Qed.

(** Looking for [P] in a list is not changed, but for the index, by
    taking out an element that does not satisfy [P]. *)
Lemma list_find_delete_other {A} (P : A -> Prop) `{!forall x, Decision (P x)}
    (l : list A) i x :
  l !! i = Some x -> ~ P x ->
  snd <$> list_find P (delete i l) = snd <$> list_find P l.
Proof.
  revert i. induction l as [|y l IH]; intros [|i] Hi Hx; simpl in *; try done.
  - injection Hi as ->. rewrite decide_False by done.
    by destruct (list_find P l) as [[]|].
  - destruct (decide (P y)); [done|].
    specialize (IH i Hi Hx).
    destruct (list_find P (delete i l)) as [[]|], (list_find P l) as [[]|];
      simpl in *; congruence.
Qed.

Lemma list_find_insert_other {A} (P : A -> Prop) `{!forall x, Decision (P x)}
    (l : list A) i x x' :
  l !! i = Some x -> ~ P x -> ~ P x' ->
  list_find P (<[i := x']> l) = list_find P l.
Proof.
  revert i. induction l as [|y l IH]; intros [|i] Hi Hx Hx'; simpl in *; try done.
  - injection Hi as ->. by rewrite !decide_False by done.
  - destruct (decide (P y)); [done|]. by rewrite (IH i).
Qed.

Lemma list_find_snoc_other {A} (P : A -> Prop) `{!forall x, Decision (P x)}
    (l : list A) x :
  ~ P x -> list_find P (l ++ [x]) = list_find P l.
Proof.
  intros Hx. destruct (list_find P l) as [[i y]|] eqn:E.
  - by apply list_find_app_l.
  - rewrite list_find_app_r by done. simpl. by rewrite decide_False.
Qed.

(** The identifier after an item whose identifier is above all the
    others. *)
Lemma new_id_snoc st it :
  (forall x, x ∈ st -> id x < id it) -> new_id (st ++ [it]) = id it + 1.
Proof.
  intros Hlt. unfold new_id. rewrite fmap_app. simpl.
  destruct (id <$> st) as [|a l] eqn:E; [done|]. simpl.
  rewrite foldl_app. simpl. f_equal.
  assert (H := foldl_max_in a l). rewrite <- E in H.
  apply list_elem_of_fmap in H as (x & -> & Hx%Hlt). lia.
Qed.

End Compose.

(** X4: a POST that succeeds, followed by DELETE on the identifier it
    assigned, gives back the collection as it was before the POST; the item
    DELETE returns is the item POST created. *)
Theorem post_then_delete b st idp :
  errors_of b = [] ->
  Num.parseInt idp = Some (new_id st) ->
  exists it,
    handle (POST_menu b) st = (Response 201 (OneItem it), st ++ [it]) /\
    handle (DELETE_menu_id idp) (st ++ [it]) =
      (Response 200 (Deleted "Menu item deleted" it), st).
Proof.
  intros Hv Hp. exists (stored (new_id st) b). rewrite (post_valid _ _ Hv).
  split; [done|]. simpl. unfold delete_menu_id.
  rewrite list_find_app_r by (by apply new_id_not_found).
  simpl. rewrite decide_True by (by unfold has_id; simpl). simpl.
  f_equal. rewrite (delete_middle st []). apply app_nil_r.
Qed.

Lemma post_then_delete_witness :
  exists it,
    handle (POST_menu iced_tea) menuItems =
      (Response 201 (OneItem it), menuItems ++ [it]) /\
    handle (DELETE_menu_id "7") (menuItems ++ [it]) =
      (Response 200 (Deleted "Menu item deleted" it), menuItems).
Proof.
  apply (post_then_delete iced_tea menuItems "7").
  - vm_compute. reflexivity.
  - vm_compute. reflexivity.
Defined.

(** X5: after a PUT that succeeds, GET on the same path parameter returns
    the item PUT returned, whatever the collection holds. *)
Theorem put_then_get b idp st i it :
  errors_of b = [] ->
  found idp st i it ->
  exists it',
    handle (PUT_menu_id idp b) st =
      (Response 200 (OneItem it'), <[i := it']> st) /\
    handle (GET_menu_id idp) (<[i := it']> st) =
      (Response 200 (OneItem it'), <[i := it']> st).
Proof.
  intros Hv Hf. exists (stored (id it) b). rewrite (put_valid _ _ _ Hv).
  pose proof Hf as Hf'. unfold found in Hf'. rewrite Hf'. split; [done|].
  simpl. unfold get_menu_id.
  assert (H := found_insert idp st i it (stored (id it) b) Hf eq_refl).
  unfold found in H. by rewrite H.
Qed.

Lemma put_then_get_witness :
  exists it',
    handle (PUT_menu_id "6" iced_tea) menuItems =
      (Response 200 (OneItem it'), <[5%nat := it']> menuItems) /\
    handle (GET_menu_id "6") (<[5%nat := it']> menuItems) =
      (Response 200 (OneItem it'), <[5%nat := it']> menuItems).
Proof.
  apply (put_then_get iced_tea "6" menuItems 5
    (Item 6 (Some (VStr "Fish and Chips"))
       (Some (VStr "Beer-battered cod with seasoned fries and coleslaw"))
       (Finite (Dec 1499 (-2))) (Some (VStr "entree"))
       (strs ["cod"; "beer batter"; "potatoes"; "coleslaw"; "tartar sauce"])
       (VBool false))).
  - vm_compute. reflexivity.
  - vm_compute. reflexivity.
Defined.

(** X6: of two PUTs in a row on the same path parameter, the second with
    a body that passes validation, nothing of the first is left: the
    answer and the collection are those of the second PUT alone.  So a PUT
    that succeeds can be repeated without effect. *)
Theorem put_overwrites_put b1 b2 idp st :
  errors_of b2 = [] ->
  handle (PUT_menu_id idp b2) (handle (PUT_menu_id idp b1) st).2 =
  handle (PUT_menu_id idp b2) st.
Proof.
  intros Hv2. destruct (decide (errors_of b1 = [])) as [Hv1|Hv1].
  - rewrite (put_valid _ b1 _ Hv1).
    destruct (list_find (has_id idp) st) as [[i it]|] eqn:Hf; [|done].
    cbn [snd].
    assert (H := found_insert idp st i it (stored (id it) b1) Hf eq_refl).
    unfold found in H. rewrite !(put_valid _ b2 _ Hv2), H, Hf. cbn [id stored].
    by rewrite list_insert_insert_eq.
  - by rewrite (put_invalid _ b1 _ Hv1).
Qed.

Lemma put_overwrites_put_witness :
  handle (PUT_menu_id "3" iced_tea)
    (handle (PUT_menu_id "3" iced_tea_raw) menuItems).2 =
  handle (PUT_menu_id "3" iced_tea) menuItems.
Proof.
  apply (put_overwrites_put iced_tea_raw iced_tea "3" menuItems).
  vm_compute. reflexivity.
Defined.

(** X7: a PUT or a DELETE on one path parameter does not change what GET
    answers for a parameter that denotes another integer (or none); a POST
    does not change what GET answers for any parameter but the one that
    denotes the identifier it assigns. *)
Theorem other_ids_untouched idp idp' b st :
  Num.parseInt idp' <> Num.parseInt idp ->
  (handle (GET_menu_id idp') (handle (PUT_menu_id idp b) st).2).1 =
    (handle (GET_menu_id idp') st).1 /\
  (handle (GET_menu_id idp') (handle (DELETE_menu_id idp) st).2).1 =
    (handle (GET_menu_id idp') st).1 /\
  (Num.parseInt idp' <> Some (new_id st) ->
   (handle (GET_menu_id idp') (handle (POST_menu b) st).2).1 =
     (handle (GET_menu_id idp') st).1).
Proof.
  intros Hne.
  assert (Hget : forall st1 st2,
            snd <$> list_find (has_id idp') st1 = snd <$> list_find (has_id idp') st2 ->
            (handle (GET_menu_id idp') st1).1 = (handle (GET_menu_id idp') st2).1).
  { intros st1 st2 H. simpl. unfold get_menu_id.
    destruct (list_find _ st1) as [[]|], (list_find _ st2) as [[]|];
      simpl in *; congruence. }
  assert (Hother : forall it, has_id idp it -> ~ has_id idp' it).
  { unfold has_id. intros it H H'. apply Hne. congruence. }
  split; [|split].
  - apply Hget. f_equal. destruct (decide (errors_of b = [])) as [Hv|Hv].
    + rewrite (put_valid _ _ _ Hv).
      destruct (list_find (has_id idp) st) as [[i it]|] eqn:Hf; [|done].
      apply list_find_Some in Hf as (Hi & Hid & _). cbn [snd].
      apply (list_find_insert_other _ _ _ it); [done|by apply Hother|].
      apply Hother. unfold has_id in *. by simpl.
    + by rewrite (put_invalid _ _ _ Hv).
  - apply Hget. simpl. unfold delete_menu_id.
    destruct (list_find (has_id idp) st) as [[i it]|] eqn:Hf; [|done].
    apply list_find_Some in Hf as (Hi & Hid & _). cbn [snd].
    apply (list_find_delete_other _ _ _ it); [done|by apply Hother].
  - intros Hnew. apply Hget. f_equal.
    destruct (decide (errors_of b = [])) as [Hv|Hv].
    + rewrite (post_valid _ _ Hv). cbn [snd].
      apply list_find_snoc_other. unfold has_id. simpl. congruence.
    + by rewrite (post_invalid _ _ Hv).
Qed.

Lemma other_ids_untouched_witness :
  (handle (GET_menu_id "2") (handle (DELETE_menu_id "1") menuItems).2).1 =
  (handle (GET_menu_id "2") menuItems).1.
Proof.
  refine (proj1 (proj2 (other_ids_untouched "1" "2" iced_tea menuItems _))).
  vm_compute. discriminate.
Defined.

(** X8: two POSTs in a row with bodies that pass validation create two
    items at the end of the collection, the second with the identifier of
    the first plus one. *)
Theorem consecutive_posts b1 b2 st :
  errors_of b1 = [] ->
  errors_of b2 = [] ->
  exists it1 it2,
    run [POST_menu b1; POST_menu b2] st =
      ([Response 201 (OneItem it1); Response 201 (OneItem it2)],
       st ++ [it1; it2]) /\
    id it2 = id it1 + 1.
Proof.
  intros Hv1 Hv2.
  exists (stored (new_id st) b1), (stored (new_id st + 1) b2).
  split; [|done]. cbn [run].
  rewrite (post_valid _ _ Hv1), (post_valid _ _ Hv2).
  rewrite (new_id_snoc st (stored (new_id st) b1)).
  - by rewrite <- app_assoc.
  - intros x. apply new_id_above.
Qed.

Lemma consecutive_posts_witness :
  exists it1 it2,
    run [POST_menu iced_tea; POST_menu iced_tea_raw] menuItems =
      ([Response 201 (OneItem it1); Response 201 (OneItem it2)],
       menuItems ++ [it1; it2]) /\
    id it2 = id it1 + 1.
Proof.
  apply (consecutive_posts iced_tea iced_tea_raw menuItems).
  - vm_compute. reflexivity.
  - vm_compute. reflexivity.
Defined.

(** ** What validation accepts *)

Section Accepts.

Implicit Types (b : gmap string value) (v : option value).

Lemma passes_standard p f m v :
  passes f v -> (run_item p (standard f m) v).1 = [].
Proof.
  unfold passes. simpl. generalize (wrap v).
  induction 1 as [|x l Hx _ IH]; simpl; [done|]. by rewrite Hx, IH.
Qed.

Lemma chain_error_reported b c e :
  c ∈ validateMenuItem -> e ∈ chain_errors c (b !! field c) -> e ∈ errors_of b.
Proof.
  intros Hc He. rewrite errors_of_chains. apply list_elem_of_In, in_flat_map.
  exists c. split; by apply list_elem_of_In.
Qed.

Lemma chain_errors_path c v e : e ∈ chain_errors c v -> path e = field c.
Proof.
  unfold chain_errors. intros He.
  assert (H := run_stack_path (field c) (stack c) v). rewrite Forall_forall in H.
  destruct (is_optional c), v; try by apply H.
  by apply elem_of_nil in He.
Qed.

End Accepts.

(** X9: a body passes validation exactly when its name is a string of at
    least 3 characters once trimmed, its description a string of at least
    10 once trimmed, its price passes [isFloat] above zero, its category is
    one of the four strings, its ingredients are an array of at least one
    element, and its [available] is not there or passes [isBoolean]. *)
Theorem validation_accepts b :
  errors_of b = [] <->
  (exists s, b !! "name" = Some (VStr s) /\
             (3 <= String.length (Chars.trim s))%nat) /\
  (exists s, b !! "description" = Some (VStr s) /\
             (10 <= String.length (Chars.trim s))%nat) /\
  passes Validator.isFloat_gt0 (b !! "price") /\
  (exists s, b !! "category" = Some (VStr s) /\
             s ∈ ["appetizer"; "entree"; "dessert"; "beverage"]) /\
  (exists l, b !! "ingredients" = Some (VArr l) /\ (1 <= length l)%nat) /\
  (b !! "available" = None \/ passes Validator.isBoolean (b !! "available")).
Proof.
  split.
  - intros Hv. split; [by apply valid_name|]. split; [by apply valid_description|].
    split; [by apply valid_price|]. split; [by apply valid_category|].
    split; [by apply valid_ingredients|by apply valid_available].
  - intros ((s & Hs & Hls) & (d & Hd & Hld) & Hp & (c & Hc & Hin) &
            (l & Hl & Hlen) & Ha).
    rewrite errors_of_chains. unfold validateMenuItem. cbn [flat_map field].
    rewrite Hs, Hd, Hc, Hl. unfold chain_errors.
    cbn [is_optional field stack run_stack].
    assert (Hprice := passes_standard "price" _
              "Price must be a number greater than 0" _ Hp).
    change (standard Validator.isFloat_gt0) with isFloat_gt0 in Hprice.
    destruct (run_item "price" _ _) as [ep vp]. simpl in Hprice. subst ep.
    assert (Hav : b !! "available" = None \/
              (run_item "available" (isBoolean "Available must be a boolean")
                 (b !! "available")).1 = []).
    { destruct Ha as [Ha|Ha]; [by left|right]. by apply passes_standard. }
    cbn [run_item isString trim isLength_min isIn isArray_min
         fst snd app flat_map wrap map toString jsString].
    unfold Validator.isLength, Validator.isIn.
    rewrite !bool_decide_eq_true_2 by done.
    destruct (b !! "available") as [a|]; [|done].
    destruct Hav as [Hav|Hav]; [done|].
    destruct (run_item "available" _ _) as [ea va]. simpl in Hav. by subst ea.
Qed.

Lemma validation_accepts_witness :
  passes Validator.isFloat_gt0 (iced_tea_raw !! "price").
Proof.
  refine (proj1 (proj2 (proj2 (proj1 (validation_accepts iced_tea_raw) _)))).
  vm_compute. reflexivity.
Defined.

Section Missing.

Implicit Types (b : gmap string value) (c : chain).

Lemma chains_reject_null : Forall (fun c => rejects c (Some VNull)) validateMenuItem.
Proof.
  unfold validateMenuItem.
  repeat (apply List.Forall_cons; [vm_compute; exact I|]). apply List.Forall_nil.
Qed.

Lemma chains_reject_undefined :
  Forall (fun c => is_optional c = false -> rejects c None) validateMenuItem.
Proof.
  unfold validateMenuItem.
  repeat (apply List.Forall_cons;
          [first [by intros [=] | intros _; vm_compute; exact I]|]).
  apply List.Forall_nil.
Qed.

Lemma optional_chain c :
  c ∈ validateMenuItem -> is_optional c = true -> field c = "available".
Proof.
  unfold validateMenuItem. intros Hc Ho.
  repeat (apply elem_of_cons in Hc as [->|Hc]; [by simpl in *|]).
  by apply elem_of_nil in Hc.
Qed.

Lemma rejects_reported b c :
  c ∈ validateMenuItem -> rejects c (b !! field c) ->
  exists e, e ∈ errors_of b /\ path e = field c.
Proof.
  unfold rejects. intros Hc Hr.
  destruct (chain_errors c (b !! field c)) as [|e es] eqn:E; [done|].
  exists e. split.
  - apply (chain_error_reported b c); [done|]. rewrite E. apply list_elem_of_here.
  - apply (chain_errors_path c (b !! field c)). rewrite E. apply list_elem_of_here.
Qed.

End Missing.

(** X10: a body in which one of the six properties is [null], or in which
    one of the five required properties is missing, fails validation with
    an error that names this property, whatever the other properties are;
    POST and PUT then answer 400 and leave the collection as it was. *)
Theorem missing_or_null_reported b f :
  f ∈ body_fields ->
  b !! f = Some VNull \/ (b !! f = None /\ f ∈ required_fields) ->
  (exists e, e ∈ errors_of b /\ path e = f) /\
  (forall st, handle (POST_menu b) st = (validation_failed b, st)) /\
  (forall idp st, handle (PUT_menu_id idp b) st = (validation_failed b, st)).
Proof.
  intros Hf Hb.
  assert (exists c, c ∈ validateMenuItem /\ field c = f) as (c & Hc & <-).
  { unfold body_fields in Hf. rewrite <- validateMenuItem_fields in Hf.
    apply list_elem_of_fmap in Hf as (c & -> & Hc). eauto. }
  assert (Hrej : rejects c (b !! field c)).
  { destruct Hb as [->|[-> Hreq]].
    - assert (H := chains_reject_null). rewrite Forall_forall in H. by apply H.
    - assert (H := chains_reject_undefined). rewrite Forall_forall in H.
      apply H; [done|]. destruct (is_optional c) eqn:Ho; [|done].
      apply (optional_chain c Hc) in Ho. rewrite Ho in Hreq.
      exfalso. revert Hreq. apply (bool_decide_unpack _). by vm_compute. }
  destruct (rejects_reported b c Hc Hrej) as (e & He & Hpath).
  assert (errors_of b <> []) as Hne.
  { intros Hnil. rewrite Hnil in He. by apply elem_of_nil in He. }
  split; [eauto|]. split.
  - intros st. by apply post_invalid.
  - intros idp st. by apply put_invalid.
Qed.

Lemma missing_or_null_reported_witness :
  exists e, e ∈ errors_of (delete "price" iced_tea) /\ path e = "price".
Proof.
  refine (proj1 (missing_or_null_reported (delete "price" iced_tea) "price" _ _)).
  - apply (bool_decide_unpack _). vm_compute. exact I.
  - right. split; [vm_compute; reflexivity|].
    apply (bool_decide_unpack _). vm_compute. exact I.
Defined.

(** ** Rules that hold of every stored item *)

Section Stored.

Implicit Types (st : store) (r : request) (b : gmap string value).

Lemma stored_texts_trimmed n b : errors_of b = [] -> texts_trimmed (stored n b).
Proof.
  intros Hv.
  destruct (valid_name b Hv) as (s & Hs & _).
  destruct (valid_description b Hv) as (d & Hd & _).
  unfold texts_trimmed, stored. simpl. rewrite Hs, Hd. simpl.
  split; intros ? [= <-]; apply trim_trim.
Qed.

(** A property of items that the initial items have and that every item
    made from a body that passes validation has, holds of every item of
    every state the server can be in. *)
Lemma reachable_Forall (P : item -> Prop) st :
  Forall P menuItems ->
  (forall n b, errors_of b = [] -> P (stored n b)) ->
  reachable st -> Forall P st.
Proof.
  intros Hseed Hstored. induction 1 as [|r st _ IH]; [done|].
  destruct r as [|idp|b|idp b|idp].
  - done.
  - simpl. unfold get_menu_id. by destruct (list_find _ _) as [[]|].
  - destruct (decide (errors_of b = [])) as [Hv|Hv].
    + rewrite (post_valid _ _ Hv). cbn [snd]. apply Forall_app. split; [done|].
      constructor; [|constructor]. by apply Hstored.
    + by rewrite (post_invalid _ _ Hv).
  - destruct (decide (errors_of b = [])) as [Hv|Hv].
    + rewrite (put_valid _ _ _ Hv).
      destruct (list_find _ _) as [[i it]|]; [|done]. cbn [snd].
      apply Forall_insert; [done|]. by apply Hstored.
    + by rewrite (put_invalid _ _ _ Hv).
  - simpl. unfold delete_menu_id.
    destruct (list_find _ _) as [[i it]|]; [|done]. cbn [snd].
    by apply Forall_delete.
Qed.

Lemma menuItems_trimmed : Forall texts_trimmed menuItems.
Proof.
  unfold menuItems.
  repeat (apply List.Forall_cons;
          [split; intros ? [= <-]; vm_compute; reflexivity|]).
  apply List.Forall_nil.
Qed.



End Stored.

(** X11: in every state the server can be in, every item has a name of at
    least 3 characters and a description of at least 10, both strings
    without white space around them, one of the four categories, and a
    non-empty array of ingredients. *)
Theorem texts_always_well_formed st :
  reachable st ->
  Forall texts_well_formed st /\ Forall texts_trimmed st.
Proof.
  intros Hr. split.
  - by apply reachable_texts_well_formed.
  - apply reachable_Forall; [apply menuItems_trimmed| |done].
    intros n b. apply stored_texts_trimmed.
Qed.

Lemma texts_always_well_formed_witness :
  Forall texts_trimmed (handle (POST_menu iced_tea_raw) menuItems).2.
Proof.
  refine (proj2 (texts_always_well_formed
                   (handle (POST_menu iced_tea_raw) menuItems).2 _)).
  apply reachable_step, reachable_start.
Defined.



(** ** The decimal numeral of an identifier *)

Section Numerals.

Import Chars.

Lemma span_uint_app u rest :
  span_digits 10 (NilEmpty.string_of_uint u +:+ rest) =
  (uint_digits u ++ (span_digits 10 rest).1, (span_digits 10 rest).2).
Proof.
  induction u; simpl; try (rewrite IHu; reflexivity).
  change ("" +:+ rest) with rest. by destruct (span_digits 10 rest).
Qed.

Lemma span_uint u :
  span_digits 10 (NilEmpty.string_of_uint u) = (uint_digits u, "").
Proof. induction u; simpl; try (rewrite IHu; reflexivity). done. Qed.

Lemma value_revapp u d' :
  Z.of_N (DecimalPos.Unsigned.of_lu (Decimal.revapp u d')) =
  foldl (fun acc d => acc * 10 + d) (Z.of_N (DecimalPos.Unsigned.of_lu d'))
    (uint_digits u).
Proof.
  revert d'. induction u; intros d'; simpl; [done|..];
    rewrite IHu; f_equal; simpl DecimalPos.Unsigned.of_lu; lia.
Qed.

(** The digits of the numeral of [n] denote [n]. *)
Lemma digits_value_to_uint (n : N) :
  digits_value 10 (uint_digits (N.to_uint n)) = Z.of_N n.
Proof.
  rewrite <- (DecimalN.Unsigned.of_to n) at 2.
  unfold N.of_uint. rewrite DecimalPos.Unsigned.of_uint_alt.
  unfold Decimal.rev. by rewrite value_revapp.
Qed.

Lemma nat_string_alt n :
  Num.nat_string n = NilEmpty.string_of_uint (N.to_uint (Z.to_N n)).
Proof.
  unfold Num.nat_string, NilZero.string_of_uint.
  destruct (N.to_uint (Z.to_N n)) eqn:E; try reflexivity.
  destruct (Z.to_N n); [discriminate|].
  by apply DecimalPos.Unsigned.to_uint_nonnil in E.
Qed.

Lemma to_uint_digits_nonempty (n : N) : uint_digits (N.to_uint n) <> [].
Proof.
  destruct n as [|p]; [discriminate|]. simpl.
  assert (H := DecimalPos.Unsigned.to_uint_nonnil p).
  by destruct (Pos.to_uint p).
Qed.

(** [parseInt] of a string of decimal digits. *)
Lemma parseInt_unsigned s d ds :
  span_digits 10 s = (d :: ds, "") ->
  Num.parseInt s = Some (digits_value 10 (d :: ds)).
Proof.
  intros Hs. destruct s as [|c r]; [discriminate|].
  pose proof Hs as Hs'. simpl in Hs'.
  destruct (digit_value 10 c) as [d0|] eqn:Hd; [|discriminate].
  destruct (span_digits 10 r) as [ds0 rest] eqn:Hr. injection Hs' as -> -> ->.
  unfold Num.parseInt. simpl ltrim. rewrite (digit_not_space c d Hd).
  destruct (strip_sign_cases c r) as [[-> _]|[[-> _]| ->]]; [discriminate..|].
  rewrite (radix_10 c r d Hd) by eauto. by rewrite Hs.
Qed.

(** [parseInt] reads the decimal numeral of a natural number back. *)
Lemma parseInt_nat_string n : 0 <= n -> Num.parseInt (Num.nat_string n) = Some n.
Proof.
  intros Hn. rewrite nat_string_alt.
  assert (Hs := span_uint (N.to_uint (Z.to_N n))).
  destruct (uint_digits (N.to_uint (Z.to_N n))) as [|d ds] eqn:E.
  { by apply to_uint_digits_nonempty in E. }
  rewrite (parseInt_unsigned _ d ds Hs), <- E, digits_value_to_uint.
  f_equal. lia.
Qed.

End Numerals.

(** X13: in every state the server can be in, GET on the decimal numeral
    of the identifier of an item of the collection returns that item; so
    the item a POST creates is returned by GET on the numeral of the
    identifier the POST answered. *)
Theorem item_found_by_numeral st it :
  reachable st ->
  it ∈ st ->
  handle (GET_menu_id (Num.nat_string (id it))) st =
    (Response 200 (OneItem it), st) /\
  (forall b, errors_of b = [] ->
     exists it',
       handle (POST_menu b) st = (Response 201 (OneItem it'), st ++ [it']) /\
       handle (GET_menu_id (Num.nat_string (id it'))) (st ++ [it']) =
         (Response 200 (OneItem it'), st ++ [it'])).
Proof.
  assert (Hget : forall st it, reachable st -> it ∈ st ->
            handle (GET_menu_id (Num.nat_string (id it))) st =
            (Response 200 (OneItem it), st)).
  { clear. intros st it Hr Hin.
    assert (1 <= id it) as Hpos.
    { assert (H := reachable_positive st Hr). rewrite Forall_forall in H.
      by apply H. }
    assert (has_id (Num.nat_string (id it)) it) as Hid.
    { unfold has_id. rewrite parseInt_nat_string; [done|lia]. }
    destruct (found_unique _ st it (reachable_NoDup st Hr) Hin Hid) as [i Hf].
    simpl. unfold get_menu_id. unfold found in Hf. by rewrite Hf. }
  intros Hr Hin. split; [by apply Hget|].
  intros b Hv. exists (stored (new_id st) b).
  assert (Hpost := post_valid b st Hv). split; [done|].
  apply Hget.
  - assert (H := reachable_step (POST_menu b) st Hr). by rewrite Hpost in H.
  - apply elem_of_app. right. apply list_elem_of_here.
Qed.

Lemma item_found_by_numeral_witness :
  handle (GET_menu_id (Num.nat_string 7)) (handle (POST_menu iced_tea) menuItems).2 =
  (Response 200 (OneItem (stored 7 iced_tea)), (handle (POST_menu iced_tea) menuItems).2).
Proof.
  refine (proj1 (item_found_by_numeral (handle (POST_menu iced_tea) menuItems).2
                   (stored 7 iced_tea) _ _)).
  - apply reachable_step, reachable_start.
  - rewrite (post_valid iced_tea menuItems iced_tea_valid).
    apply elem_of_app. right. apply list_elem_of_here.
Defined.

(** ** Bodies the server does not tell apart *)

Section Same.

Implicit Types (b : gmap string value) (st : store).

(** Two bodies on which every chain reports the same errors and from which
    the same item is made get the same answers. *)
Lemma same_answers b1 b2 idp st :
  Forall (fun c => chain_errors c (b1 !! field c) = chain_errors c (b2 !! field c))
    validateMenuItem ->
  (forall n, stored n b1 = stored n b2) ->
  handle (POST_menu b1) st = handle (POST_menu b2) st /\
  handle (PUT_menu_id idp b1) st = handle (PUT_menu_id idp b2) st.
Proof.
  intros Hc Hs.
  assert (He : errors_of b1 = errors_of b2).
  { rewrite !errors_of_chains, !flat_map_concat_map. f_equal.
    apply map_ext_in. intros c Hin. rewrite Forall_forall in Hc.
    by apply Hc, list_elem_of_In. }
  destruct (decide (errors_of b1 = [])) as [Hv|Hv].
  - rewrite !post_valid, !put_valid by congruence. rewrite Hs. split; [done|].
    destruct (list_find _ _) as [[i it]|]; [|done]. by rewrite Hs.
  - rewrite !post_invalid, !put_invalid by congruence.
    unfold validation_failed. by rewrite He.
Qed.

(** Two bodies on which every chain reports the same errors but for
    their values, and from which the same item is made, get the same
    answers but for the values of the errors, and leave the same state. *)
Lemma same_answers_but_values b1 b2 idp st :
  Forall (fun c => without_value <$> chain_errors c (b1 !! field c) =
                   without_value <$> chain_errors c (b2 !! field c))
    validateMenuItem ->
  (forall n, stored n b1 = stored n b2) ->
  (handle (POST_menu b1) st).2 = (handle (POST_menu b2) st).2 /\
  without_values (handle (POST_menu b1) st).1 =
    without_values (handle (POST_menu b2) st).1 /\
  (handle (PUT_menu_id idp b1) st).2 = (handle (PUT_menu_id idp b2) st).2 /\
  without_values (handle (PUT_menu_id idp b1) st).1 =
    without_values (handle (PUT_menu_id idp b2) st).1.
Proof.
  intros Hc Hs.
  assert (He : without_value <$> errors_of b1 = without_value <$> errors_of b2).
  { rewrite !errors_of_chains. generalize validateMenuItem Hc.
    induction 1 as [|c cs Hc1 _ IH]; [done|].
    cbn [flat_map]. by rewrite !fmap_app, Hc1, IH. }
  destruct (decide (errors_of b1 = [])) as [Hv|Hv].
  - assert (errors_of b2 = []) as Hv2.
    { rewrite Hv in He. symmetry in He. by apply fmap_nil_inv in He. }
    rewrite !post_valid, !put_valid by done. rewrite Hs.
    split; [done|]. split; [done|].
    destruct (list_find _ _) as [[i it]|]; [|done]. by rewrite Hs.
  - assert (errors_of b2 <> []) as Hv2.
    { intros H2. rewrite H2 in He. by apply fmap_nil_inv in He. }
    rewrite !post_invalid, !put_invalid by done.
    unfold validation_failed, without_values. cbn [fst snd json status].
    by rewrite He.
Qed.

End Same.

(** X14: white space around the name or the description of a body does not
    count: whether the text is sent as it is or already trimmed, POST and
    PUT give the same answer and leave the same collection. *)
Theorem surrounding_space_ignored b f s idp st :
  f = "name" \/ f = "description" ->
  b !! f = Some (VStr s) ->
  handle (POST_menu (<[f := VStr (Chars.trim s)]> b)) st = handle (POST_menu b) st /\
  handle (PUT_menu_id idp (<[f := VStr (Chars.trim s)]> b)) st =
    handle (PUT_menu_id idp b) st.
Proof.
  intros Hf Hb. apply same_answers.
  - unfold validateMenuItem.
    destruct Hf as [-> | ->];
      repeat (apply List.Forall_cons;
        [cbn [field];
         first [ rewrite lookup_insert_ne by discriminate; reflexivity
               | rewrite lookup_insert_eq, Hb; unfold chain_errors;
                 cbn [is_optional field stack run_stack run_item isString trim
                      isLength_min fst snd app flat_map wrap map toString
                      jsString];
                 by rewrite trim_trim ]|]);
      apply List.Forall_nil.
  - intros n. unfold stored.
    destruct Hf as [-> | ->];
      rewrite lookup_insert_eq, !lookup_insert_ne by discriminate;
      rewrite Hb; unfold trimmed;
      cbn [run_item trim snd toString jsString]; by rewrite trim_trim.
Qed.

Lemma surrounding_space_ignored_witness :
  handle (POST_menu (<["name" := VStr (Chars.trim "  Iced Tea ")]> iced_tea_raw))
    menuItems =
  handle (POST_menu iced_tea_raw) menuItems.
Proof.
  refine (proj1 (surrounding_space_ignored iced_tea_raw "name" "  Iced Tea " "1"
                   menuItems _ _)).
  - by left.
  - vm_compute. reflexivity.
Defined.

(** ** Path parameters that start with a numeral *)

Section Prefix.

Import Chars.

Implicit Types (st : store) (idp : string).

(** The routes look at the path parameter through [parseInt] only. *)
Lemma same_parseInt idp1 idp2 b st :
  Num.parseInt idp1 = Num.parseInt idp2 ->
  handle (GET_menu_id idp1) st = handle (GET_menu_id idp2) st /\
  handle (DELETE_menu_id idp1) st = handle (DELETE_menu_id idp2) st /\
  handle (PUT_menu_id idp1 b) st = handle (PUT_menu_id idp2 b) st.
Proof.
  intros Hp.
  assert (Hfind : list_find (has_id idp1) st = list_find (has_id idp2) st).
  { apply list_find_ext. intros it. unfold has_id. by rewrite Hp. }
  split; [|split].
  - simpl. unfold get_menu_id. by rewrite Hfind.
  - simpl. unfold delete_menu_id. by rewrite Hfind.
  - destruct (decide (errors_of b = [])) as [Hv|Hv].
    + by rewrite !(put_valid _ _ _ Hv), Hfind.
    + by rewrite !(put_invalid _ _ _ Hv).
Qed.

Lemma radix_10_next c0 r0 d :
  digit_value 10 c0 = Some d ->
  (forall c r, r0 = String c r -> (code c =? 120) || (code c =? 88) = false) ->
  match String c0 r0 with
  | String "0" (String c r) =>
      if (code c =? 120) || (code c =? 88) then (16, r) else (10, String c0 r0)
  | _ => (10, String c0 r0)
  end = (10, String c0 r0).
Proof.
  intros Hd Hx. destruct r0 as [|c r].
  { by destruct c0 as [[] [] [] [] [] [] [] []]. }
  rewrite (Hx c r eq_refl). by destruct c0 as [[] [] [] [] [] [] [] []].
Qed.

Lemma digit_not_x c d :
  digit_value 10 c = Some d -> (code c =? 120) || (code c =? 88) = false.
Proof.
  unfold digit_value. generalize (code c). intros n.
  destruct (n =? 120) eqn:E1; [apply Z.eqb_eq in E1; subst; discriminate|].
  destruct (n =? 88) eqn:E2; [apply Z.eqb_eq in E2; subst; discriminate|]. done.
Qed.

(** [parseInt] of decimal digits followed by a character that is neither
    a digit nor [x] nor [X]: the number the digits denote. *)
Lemma parseInt_numeral_then s d ds c r :
  span_digits 10 s = (d :: ds, "") ->
  digit_value 10 c = None ->
  (code c =? 120) || (code c =? 88) = false ->
  Num.parseInt (s +:+ String c r) = Some (digits_value 10 (d :: ds)).
Proof.
  intros Hs Hc Hx.
  assert (Hspan : span_digits 10 (s +:+ String c r) = (d :: ds, String c r)).
  { clear Hx. revert d ds Hs.
    induction s as [|c0 s IH]; intros d ds Hs; [discriminate|].
    simpl in *. destruct (digit_value 10 c0) as [d0|]; [|discriminate].
    destruct (span_digits 10 s) as [ds0 rest] eqn:E. injection Hs as -> -> ->.
    destruct s as [|c1 s1].
    - injection E as <-. simpl. by rewrite Hc.
    - destruct ds as [|d1 ds1].
      { simpl in E. destruct (digit_value 10 c1); [|discriminate].
        by destruct (span_digits 10 s1). }
      by rewrite (IH d1 ds1 eq_refl). }
  destruct s as [|c0 r0]; [discriminate|].
  pose proof Hs as Hs'. simpl in Hs'.
  destruct (digit_value 10 c0) as [d0|] eqn:Hd; [|discriminate].
  destruct (span_digits 10 r0) as [ds0 rest] eqn:Hr. injection Hs' as -> -> ->.
  unfold Num.parseInt. change (String c0 r0 +:+ String c r) with
    (String c0 (r0 +:+ String c r)) in *.
  simpl ltrim. rewrite (digit_not_space c0 d Hd).
  destruct (strip_sign_cases c0 (r0 +:+ String c r)) as [[-> _]|[[-> _]| ->]];
    [discriminate..|].
  rewrite (radix_10_next c0 (r0 +:+ String c r) d Hd).
  - by rewrite Hspan.
  - intros c' r' Heq. destruct r0 as [|c1 r1].
    + injection Heq as <- <-. done.
    + injection Heq as <- <-. simpl in Hr.
      destruct (digit_value 10 c1) eqn:Hd1; [|discriminate].
      by eapply digit_not_x.
Qed.

End Prefix.

(** X16: on a path parameter made of the decimal numeral of [n] followed
    by text that starts with a character that is neither a digit nor [x]
    nor [X], GET, PUT and DELETE answer exactly as on the numeral alone:
    [parseInt] stops at that character.  When [n] is at most 2^53, where
    the integers a double holds exactly end, what [parseInt] reads is
    [n]. *)
Theorem numeral_prefix_is_read n c r b st :
  0 <= n ->
  Chars.digit_value 10 c = None ->
  Chars.code c <> 120 -> Chars.code c <> 88 ->
  (n <= 2 ^ 53 -> Num.parseInt (Num.nat_string n +:+ String c r) = Some n) /\
  handle (GET_menu_id (Num.nat_string n +:+ String c r)) st =
    handle (GET_menu_id (Num.nat_string n)) st /\
  handle (DELETE_menu_id (Num.nat_string n +:+ String c r)) st =
    handle (DELETE_menu_id (Num.nat_string n)) st /\
  handle (PUT_menu_id (Num.nat_string n +:+ String c r) b) st =
    handle (PUT_menu_id (Num.nat_string n) b) st.
Proof.
  intros Hn Hc H120 H88.
  assert (Hp : Num.parseInt (Num.nat_string n +:+ String c r) = Some n).
  { rewrite nat_string_alt.
    assert (Hs := span_uint (N.to_uint (Z.to_N n))).
    destruct (uint_digits (N.to_uint (Z.to_N n))) as [|d ds] eqn:E.
    { by apply to_uint_digits_nonempty in E. }
    rewrite (parseInt_numeral_then _ d ds c r Hs Hc).
    - rewrite <- E, digits_value_to_uint. f_equal. lia.
    - apply orb_false_intro; by apply Z.eqb_neq. }
  split; [done|]. apply same_parseInt.
  by rewrite Hp, parseInt_nat_string.
Qed.

Lemma numeral_prefix_is_read_witness :
  handle (GET_menu_id (Num.nat_string 3 +:+ String "." "7")) menuItems =
  handle (GET_menu_id (Num.nat_string 3)) menuItems.
Proof.
  refine (proj1 (proj2 (numeral_prefix_is_read 3 "." "7" iced_tea menuItems _ _ _ _))).
  - vm_compute. discriminate.
  - vm_compute. reflexivity.
  - vm_compute. discriminate.
  - vm_compute. discriminate.
Defined.

(** ** Numbers written out and read back *)

Section Strings.
Import Chars.

(** The digits of a string of digits followed by [t]. *)
Lemma span_app s l t :
  span_digits 10 s = (l, "") ->
  span_digits 10 (s +:+ t) = (l ++ (span_digits 10 t).1, (span_digits 10 t).2).
Proof.
  revert l. induction s as [|c s IH]; intros l Hs.
  - injection Hs as <-. change ("" +:+ t) with t. by destruct (span_digits 10 t).
  - change (String c s +:+ t) with (String c (s +:+ t)). simpl in *.
    destruct (digit_value 10 c) as [d|]; [|discriminate].
    destruct (span_digits 10 s) as [ds rest]. injection Hs as <- ->.
    by rewrite (IH ds eq_refl).
Qed.

Lemma span_length s l :
  span_digits 10 s = (l, "") -> String.length s = length l.
Proof.
  revert l. induction s as [|c s IH]; intros l Hs.
  - by injection Hs as <-.
  - simpl in *. destruct (digit_value 10 c) as [d|]; [|discriminate].
    destruct (span_digits 10 s) as [ds rest]. injection Hs as <- ->.
    simpl. f_equal. by apply IH.
Qed.

(** A substring of a string of digits holds the digits at the same
    places. *)
Lemma span_substring s l a n :
  span_digits 10 s = (l, "") ->
  span_digits 10 (substring a n s) = (take n (drop a l), "").
Proof.
  revert l a n. induction s as [|c s IH]; intros l a n Hs.
  - injection Hs as <-. destruct a, n; simpl; by rewrite ?take_nil.
  - pose proof Hs as Hs'. simpl in Hs'.
    destruct (digit_value 10 c) as [d|] eqn:Hd; [|discriminate].
    destruct (span_digits 10 s) as [ds rest] eqn:E. injection Hs' as <- ->.
    destruct a as [|a].
    + destruct n as [|n]; [done|]. simpl. rewrite Hd.
      by rewrite (IH ds 0%nat n eq_refl).
    + simpl. by apply IH.
Qed.

Lemma span_zeros n : span_digits 10 (repeat_char "0" n) = (replicate n 0, "").
Proof. induction n as [|n IH]; [done|]. simpl. by rewrite IH. Qed.

Lemma span_nat_string n :
  span_digits 10 (Num.nat_string n) = (uint_digits (N.to_uint (Z.to_N n)), "").
Proof. rewrite nat_string_alt. apply span_uint. Qed.

End Strings.

Section Values.
Import Chars.

Lemma digits_value_app l1 l2 :
  digits_value 10 (l1 ++ l2) =
  foldl (fun acc d => acc * 10 + d) (digits_value 10 l1) l2.
Proof. unfold digits_value. apply foldl_app. Qed.

Lemma foldl_zeros acc n :
  foldl (fun acc d => acc * 10 + d) acc (replicate n 0) = acc * 10 ^ Z.of_nat n.
Proof.
  revert acc. induction n as [|n IH]; intros acc; simpl; [lia|].
  rewrite IH. rewrite Nat2Z.inj_succ, Z.pow_succ_r by lia. lia.
Qed.

Lemma digits_value_zeros_l n l :
  digits_value 10 (replicate n 0 ++ l) = digits_value 10 l.
Proof.
  rewrite digits_value_app. unfold digits_value at 1.
  rewrite foldl_zeros. by rewrite Z.mul_0_l.
Qed.

Lemma digits_value_zeros_r l n :
  digits_value 10 (l ++ replicate n 0) = digits_value 10 l * 10 ^ Z.of_nat n.
Proof. by rewrite digits_value_app, foldl_zeros. Qed.

End Values.

Section Normal.

Lemma strip_zeros_sign f m e :
  (0 < mant (Num.strip_zeros f m e) <-> 0 < m).
Proof.
  revert m e. induction f as [|f IH]; intros m e; simpl; [done|].
  destruct (m mod 10 =? 0) eqn:E; [|done].
  apply Z.eqb_eq in E. rewrite IH.
  pose proof (Z.div_mod m 10 ltac:(lia)). lia.
Qed.

Lemma normalize_sign d : 0 < mant (Num.normalize d) <-> 0 < mant d.
Proof.
  unfold Num.normalize. destruct (mant d =? 0) eqn:E.
  - apply Z.eqb_eq in E. simpl. lia.
  - apply strip_zeros_sign.
Qed.

Lemma strip_zeros_fuel f1 f2 m e :
  m <> 0 -> Z.abs m < 2 ^ Z.of_nat f1 -> Z.abs m < 2 ^ Z.of_nat f2 ->
  Num.strip_zeros f1 m e = Num.strip_zeros f2 m e.
Proof.
  revert f2 m e. induction f1 as [|f1 IH]; intros f2 m e Hm H1 H2.
  { simpl in H1. lia. }
  destruct f2 as [|f2]; [simpl in H2; lia|]. simpl.
  destruct (m mod 10 =? 0) eqn:E; [|done]. apply Z.eqb_eq in E.
  pose proof (Z.div_mod m 10 ltac:(lia)).
  rewrite Nat2Z.inj_succ, Z.pow_succ_r in H1, H2 by lia.
  apply IH; lia.
Qed.

Lemma strip_zeros_S f m e :
  Num.strip_zeros (S f) m e =
  if m mod 10 =? 0 then Num.strip_zeros f (m / 10) (e + 1) else Dec m e.
Proof. reflexivity. Qed.

Lemma log2_fuel m : m <> 0 -> Z.abs m < 2 ^ Z.of_nat (S (Z.to_nat (Z.log2 (Z.abs m)))).
Proof.
  intros Hm. rewrite Nat2Z.inj_succ, Z2Nat.id by apply Z.log2_nonneg.
  apply Z.log2_spec. lia.
Qed.

(** A decimal whose mantissa does not end in a zero digit. *)
Lemma normalize_fixed m e : m mod 10 <> 0 -> Num.normalize (Dec m e) = Dec m e.
Proof.
  intros Hm. unfold Num.normalize. simpl.
  destruct (m =? 0) eqn:E; [apply Z.eqb_eq in E; subst; done|].
  apply Z.eqb_neq in Hm. by rewrite Hm.
Qed.

Lemma normalize_times_10 m e :
  m <> 0 -> Num.normalize (Dec (m * 10) e) = Num.normalize (Dec m (e + 1)).
Proof.
  intros Hm. unfold Num.normalize. cbn [mant expo].
  rewrite (proj2 (Z.eqb_neq (m * 10) 0)) by lia.
  rewrite (proj2 (Z.eqb_neq m 0)) by lia.
  rewrite (strip_zeros_S _ (m * 10) e).
  rewrite Z.mod_mul by lia. rewrite Z.eqb_refl, Z.div_mul by lia.
  apply strip_zeros_fuel; [done| |by apply log2_fuel].
  rewrite Z2Nat.id by apply Z.log2_nonneg.
  assert (Z.log2 (Z.abs m) + 3 <= Z.log2 (Z.abs (m * 10))).
  { rewrite Z.add_comm, <- (Z.log2_mul_pow2 (Z.abs m) 3) by lia.
    apply Z.log2_le_mono. lia. }
  assert (Z.abs m < 2 ^ (Z.log2 (Z.abs m) + 1)).
  { pose proof (Z.log2_spec (Z.abs m) ltac:(lia)). rewrite <- Z.add_1_r in H0. lia. }
  eapply Z.lt_le_trans; [exact H0|]. apply Z.pow_le_mono_r; lia.
Qed.

(** Zero digits at the end of the mantissa go to the exponent. *)
Lemma normalize_times_pow m e z :
  m <> 0 ->
  Num.normalize (Dec (m * 10 ^ Z.of_nat z) e) = Num.normalize (Dec m (e + Z.of_nat z)).
Proof.
  intros Hm. revert e. induction z as [|z IH]; intros e.
  - simpl. by rewrite Z.mul_1_r, Z.add_0_r.
  - rewrite Nat2Z.inj_succ, Z.pow_succ_r by lia.
    replace (m * (10 * 10 ^ Z.of_nat z)) with (m * 10 ^ Z.of_nat z * 10) by lia.
    rewrite normalize_times_10 by (apply Z.neq_mul_0; split; [done|];
      apply Z.pow_nonzero; lia).
    rewrite IH. f_equal. f_equal. lia.
Qed.

Lemma strip_zeros_mod f m e :
  m <> 0 -> Z.abs m < 2 ^ Z.of_nat f ->
  mant (Num.strip_zeros f m e) mod 10 <> 0.
Proof.
  revert m e. induction f as [|f IH]; intros m e Hm Hlt.
  { simpl in Hlt. lia. }
  simpl. destruct (m mod 10 =? 0) eqn:E; [|by apply Z.eqb_neq in E].
  apply Z.eqb_eq in E. pose proof (Z.div_mod m 10 ltac:(lia)).
  rewrite Nat2Z.inj_succ, Z.pow_succ_r in Hlt by lia. apply IH; lia.
Qed.

(** The mantissa of a normalized decimal that is not zero does not end in
    a zero digit. *)
Lemma normalize_mod d :
  mant d <> 0 -> mant (Num.normalize d) mod 10 <> 0.
Proof.
  intros Hm. unfold Num.normalize. rewrite (proj2 (Z.eqb_neq _ 0)) by done.
  apply strip_zeros_mod; [done|by apply log2_fuel].
Qed.

End Normal.

Section Literals.
Import Chars.

Lemma append_cons c s t : String c s +:+ t = String c (s +:+ t).
Proof. reflexivity. Qed.

Lemma append_empty_r s : s +:+ "" = s.
Proof. induction s as [|c s IH]; [done|]. by rewrite append_cons, IH. Qed.

Lemma span_nondigit rest :
  (span_digits 10 rest).1 = [] -> span_digits 10 rest = ([], rest).
Proof.
  destruct rest as [|c r]; [done|]. simpl.
  destruct (digit_value 10 c); [|done]. by destruct (span_digits 10 r).
Qed.

Lemma span_head s d ds :
  span_digits 10 s = (d :: ds, "") ->
  exists c r, s = String c r /\ digit_value 10 c = Some d.
Proof.
  destruct s as [|c r]; [discriminate|]. simpl.
  destruct (digit_value 10 c) as [d0|] eqn:Hd; [|discriminate].
  destruct (span_digits 10 r). intros [= -> _ _]. eauto.
Qed.

Lemma digit_not_I c d r : digit_value 10 c = Some d -> Num.is_prefix "Infinity" (String c r) = false.
Proof.
  intros Hd. destruct (Num.is_prefix _ _) eqn:E; [|done].
  apply is_prefix_Infinity in E as [r' [= -> _]]. discriminate.
Qed.

(** [parseFloat] of a string that starts with decimal digits, followed by
    [rest] that does not start with one. *)
Lemma parseFloat_after_digits s d ds rest :
  span_digits 10 s = (d :: ds, "") ->
  (span_digits 10 rest).1 = [] ->
  Num.parseFloat (s +:+ rest) =
  let ip := d :: ds in
  let '(fp, r2) :=
    match rest with
    | String "." r => span_digits 10 r
    | _ => ([], rest)
    end in
  match ip ++ fp with
  | [] => NaN
  | ds =>
      let ex :=
        match r2 with
        | String c r =>
            if (code c =? 101) || (code c =? 69) then
              let '(eneg, r') := strip_sign r in
              match span_digits 10 r' with
              | ([], _) => 0
              | (es, _) =>
                  let v := digits_value 10 es in
                  if eneg then - v else v
              end
            else 0
        | EmptyString => 0
        end in
      let m := digits_value 10 ds in
      Finite (Num.normalize (Dec m (ex - Z.of_nat (length fp))))
  end.
Proof.
  intros Hs Hrest. destruct (span_head s d ds Hs) as (c & r & -> & Hd).
  assert (Hspan := span_app _ _ rest Hs).
  rewrite (span_nondigit rest Hrest) in Hspan. cbn [fst snd] in Hspan.
  rewrite app_nil_r in Hspan. rewrite append_cons in *.
  unfold Num.parseFloat. simpl ltrim. rewrite (digit_not_space c d Hd).
  destruct (strip_sign_cases c (r +:+ rest)) as [[-> _]|[[-> _]| ->]];
    [discriminate..|].
  rewrite (digit_not_I c d _ Hd). by rewrite Hspan.
Qed.

End Literals.

Section Regexp.
Import Chars.

Lemma float_re_digit c t d :
  digit_value 10 c = Some d ->
  Validator.float_re (String c t) =
  let r1 := snd (span_digits 10 (String c t)) in
  let r2 :=
    match r1 with
    | String "." r => snd (span_digits 10 r)
    | _ => r1
    end in
  match r2 with
  | EmptyString => true
  | String c r =>
      ((code c =? 101) || (code c =? 69)) &&
      let r' :=
        match r with
        | String "-" t | String "+" t => t
        | _ => r
        end in
      match span_digits 10 r' with
      | (_ :: _, EmptyString) => true
      | _ => false
      end
  end.
Proof.
  intros Hd.
  destruct c as [[] [] [] [] [] [] [] []];
    try (vm_compute in Hd; discriminate Hd); reflexivity.
Qed.

(** The regular expression of [isFloat] on a string that starts with
    decimal digits, followed by [rest] that does not start with one. *)
Lemma float_re_after_digits s d ds rest :
  span_digits 10 s = (d :: ds, "") ->
  (span_digits 10 rest).1 = [] ->
  Validator.float_re (s +:+ rest) =
  let r2 :=
    match rest with
    | String "." r => snd (span_digits 10 r)
    | _ => rest
    end in
  match r2 with
  | EmptyString => true
  | String c r =>
      ((code c =? 101) || (code c =? 69)) &&
      let r' :=
        match r with
        | String "-" t | String "+" t => t
        | _ => r
        end in
      match span_digits 10 r' with
      | (_ :: _, EmptyString) => true
      | _ => false
      end
  end.
Proof.
  intros Hs Hrest. destruct (span_head s d ds Hs) as (c & r & -> & Hd).
  assert (Hspan := span_app _ _ rest Hs).
  rewrite (span_nondigit rest Hrest) in Hspan. cbn [fst snd] in Hspan.
  rewrite app_nil_r in Hspan. rewrite append_cons in *.
  rewrite (float_re_digit c _ d Hd). by rewrite Hspan.
Qed.

Lemma not_special c r d :
  digit_value 10 c = Some d ->
  bool_decide (String c r ∈ [""; "."; ","; "-"; "+"]) = false.
Proof.
  intros Hd. apply bool_decide_eq_false. intros H.
  apply elem_of_cons in H as [[=]|H].
  apply elem_of_cons in H as [[= -> _]|H]; [discriminate|].
  apply elem_of_cons in H as [[= -> _]|H]; [discriminate|].
  apply elem_of_cons in H as [[= -> _]|H]; [discriminate|].
  apply elem_of_cons in H as [[= -> _]|H]; [discriminate|].
  by apply elem_of_nil in H.
Qed.

End Regexp.

Section Rendering.
Import Chars.

(** The numeral of [n] is a string of at least one digit, of value [n]. *)
Lemma nat_digits n :
  0 <= n ->
  exists d ds,
    span_digits 10 (Num.nat_string n) = (d :: ds, "") /\
    digits_value 10 (d :: ds) = n.
Proof.
  intros Hn. assert (Hs := span_nat_string n).
  assert (Hv := digits_value_to_uint (Z.to_N n)).
  destruct (uint_digits (N.to_uint (Z.to_N n))) as [|d ds] eqn:E.
  { by apply to_uint_digits_nonempty in E. }
  exists d, ds. split; [done|]. rewrite Hv. lia.
Qed.

(** What [Number::toString] writes for [m * 10 ^ e], with [m] above zero
    and not ending in a zero digit: [parseFloat] reads [m] and [e] back,
    the regular expression of [isFloat] matches, and the first character
    is a digit.  By the four notations of [positive_string]. *)
Lemma positive_string_read m e :
  0 < m -> m mod 10 <> 0 ->
  Num.parseFloat (Num.positive_string (Num.nat_string m) e) = Finite (Dec m e) /\
  Validator.float_re (Num.positive_string (Num.nat_string m) e) = true /\
  exists c r d,
    Num.positive_string (Num.nat_string m) e = String c r /\
    digit_value 10 c = Some d.
Proof.
  intros Hm Hmod. destruct (nat_digits m) as (d & ds & Hs & Hv); [lia|].
  assert (Hlen := span_length _ _ Hs).
  unfold Num.positive_string. rewrite Hlen.
  set (k := Z.of_nat (length (d :: ds))).
  assert (1 <= k) as Hk by (unfold k; simpl; lia).
  destruct ((k <=? k + e) && (k + e <=? 21)) eqn:B1.
  - apply andb_prop in B1 as [B1 _]. apply Z.leb_le in B1.
    replace (k + e - k) with e by lia.
    assert (HI : span_digits 10 (Num.nat_string m +:+ repeat_char "0" (Z.to_nat e)) =
                 (d :: (ds ++ replicate (Z.to_nat e) 0), "")).
    { rewrite (span_app _ _ _ Hs), span_zeros. done. }
    rewrite <- (append_empty_r (Num.nat_string m +:+ _)).
    rewrite (parseFloat_after_digits _ _ _ "" HI eq_refl).
    rewrite (float_re_after_digits _ _ _ "" HI eq_refl).
    destruct (span_head _ _ _ HI) as (c & r & -> & Hd).
    rewrite append_cons.
    split; [|split; [done|by eexists _, _, _]]. cbv zeta. cbn [app length]. rewrite app_nil_r.
    change (d :: ds ++ replicate (Z.to_nat e) 0)
      with ((d :: ds) ++ replicate (Z.to_nat e) 0).
    rewrite digits_value_zeros_r, Hv, normalize_times_pow by lia.
    rewrite normalize_fixed by done. do 2 f_equal. lia.
  - assert (B1' : k + e < k \/ 21 < k + e).
    { apply andb_false_iff in B1 as [B1|B1]; apply Z.leb_gt in B1; lia. }
    clear B1.
    destruct ((0 <? k + e) && (k + e <=? 21)) eqn:B2.
    + apply andb_prop in B2 as [B2 B2']. apply Z.ltb_lt in B2. apply Z.leb_le in B2'.
      assert (He : e < 0) by lia.
      set (n := Z.to_nat (k + e)).
      assert (Hn : (0 < n < length (d :: ds))%nat) by (unfold n; fold k; lia) .
      assert (HA := span_substring _ _ 0 n Hs).
      assert (HB := span_substring _ _ n (Z.to_nat (k - (k + e))) Hs).
      rewrite drop_0 in HA.
      destruct n as [|n'] eqn:En; [lia|]. cbn [take] in HA.
      change ("." +:+ ?s) with (String "." s).
      rewrite (parseFloat_after_digits _ _ _ (String "." _) HA eq_refl).
      rewrite (float_re_after_digits _ _ _ (String "." _) HA eq_refl).
      destruct (span_head _ _ _ HA) as (c & r & -> & Hd).
      rewrite append_cons.
      cbv zeta. rewrite HB. cbn [fst snd].
      split; [|split; [done|by eexists _, _, _]].
      rewrite (take_ge (drop _ _)) by (rewrite length_drop; fold k; lia).
      change (d :: take n' ds) with (take (S n') (d :: ds)).
      rewrite take_drop. rewrite Hv. rewrite normalize_fixed by done.
      do 2 f_equal. rewrite length_drop. fold k. lia.
    + assert (B2' : k + e <= 0 \/ 21 < k + e).
      { apply andb_false_iff in B2 as [B2|B2];
          [apply Z.ltb_ge in B2|apply Z.leb_gt in B2]; lia. }
      clear B2.
      destruct ((-6 <? k + e) && (k + e <=? 0)) eqn:B3.
      * apply andb_prop in B3 as [_ B3]. apply Z.leb_le in B3.
        set (z := Z.to_nat (- (k + e))).
        change ("0." +:+ ?s) with ("0" +:+ String "." s).
        assert (HZ : span_digits 10 (repeat_char "0" z +:+ Num.nat_string m) =
                     (replicate z 0 ++ d :: ds, "")).
        { rewrite (span_app _ _ _ (span_zeros z)), Hs. done. }
        rewrite (parseFloat_after_digits "0" 0 [] (String "." _) eq_refl eq_refl).
        rewrite (float_re_after_digits "0" 0 [] (String "." _) eq_refl eq_refl).
        cbv zeta. rewrite HZ. cbn [fst snd].
        split; [|split; [done|by eexists _, _, _]].
        cbn [app].
        change (0 :: replicate z 0 ++ d :: ds)
          with (replicate (S z) 0 ++ d :: ds).
        rewrite digits_value_zeros_l, Hv.
        rewrite normalize_fixed by done. do 2 f_equal.
        rewrite length_app, length_replicate. fold k. lia.
      * assert (B3' : k + e <= -6 \/ 21 < k + e).
        { apply andb_false_iff in B3 as [B3|B3];
            [apply Z.ltb_ge in B3|apply Z.leb_gt in B3]; lia. }
        clear B3. cbv zeta.
        set (x := k + e - 1).
        destruct (nat_digits (Z.abs x)) as (xd & xds & Hxs & Hxv); [lia|].
        assert (Hsign : exists sg : ascii,
                   (if x <? 0 then "-" else "+") +:+ Num.nat_string (Z.abs x)
                   = String sg (Num.nat_string (Z.abs x)) /\
                   strip_sign (String sg (Num.nat_string (Z.abs x)))
                   = (x <? 0, Num.nat_string (Z.abs x)) /\
                   match String sg (Num.nat_string (Z.abs x)) with
                   | String "-" t | String "+" t => t
                   | _ => String sg (Num.nat_string (Z.abs x))
                   end = Num.nat_string (Z.abs x)).
        { destruct (x <? 0); [exists "-"%char|exists "+"%char]; done. }
        destruct Hsign as (sg & -> & Hstrip & Hmatch).
        change ("e" +:+ ?s) with (String "e" s).
        destruct (k =? 1) eqn:K.
        -- apply Z.eqb_eq in K.
           rewrite (parseFloat_after_digits _ _ _ (String "e" _) Hs eq_refl).
           rewrite (float_re_after_digits _ _ _ (String "e" _) Hs eq_refl).
           destruct (span_head _ _ _ Hs) as (c & r & -> & Hd).
           rewrite append_cons.
           cbv zeta. change ((code "e" =? 101) || (code "e" =? 69)) with true.
           cbv iota. rewrite Hstrip, Hmatch, Hxs. cbv beta iota zeta.
           split; [|split; [done|by eexists _, _, _]]. rewrite app_nil_r, Hv, Hxv, normalize_fixed by done.
           do 2 f_equal. destruct (x <? 0) eqn:Ex;
             [apply Z.ltb_lt in Ex|apply Z.ltb_ge in Ex];
             unfold x in *; cbn [length]; clearbody k; lia.
        -- apply Z.eqb_neq in K.
           assert (HA := span_substring _ _ 0 1 Hs).
           assert (HB := span_substring _ _ 1 (Z.to_nat (k - 1)) Hs).
           rewrite drop_0 in HA. change (take 1 (d :: ds)) with [d] in HA.
           cbn [drop] in HB.
           rewrite drop_0 in HB.
           rewrite take_ge in HB by (unfold k; cbn [length]; clear; lia).
           change ("." +:+ ?s) with (String "." s).
           rewrite (parseFloat_after_digits _ _ _ (String "." _) HA eq_refl).
           rewrite (float_re_after_digits _ _ _ (String "." _) HA eq_refl).
           destruct (span_head _ _ _ HA) as (c & r & -> & Hd).
           rewrite append_cons.
           cbv zeta. rewrite (span_app _ _ _ HB).
           change (span_digits 10 (String "e" ?s)) with ([] : list Z, String "e" s).
           cbn [fst snd].
           change ((code "e" =? 101) || (code "e" =? 69)) with true.
           cbv iota. rewrite Hstrip, Hmatch, Hxs. cbv beta iota zeta.
           split; [|split; [done|by eexists _, _, _]]. rewrite app_nil_r. cbn [app]. rewrite Hv, Hxv, normalize_fixed by done.
           do 2 f_equal. destruct (x <? 0) eqn:Ex;
             [apply Z.ltb_lt in Ex|apply Z.ltb_ge in Ex];
             unfold x in *; assert (k = Z.of_nat (S (length ds))) by done;
             clearbody k; lia.
Qed.

Lemma strip_zeros_opp f m e :
  Num.strip_zeros f (- m) e =
  Dec (- mant (Num.strip_zeros f m e)) (expo (Num.strip_zeros f m e)).
Proof.
  revert m e. induction f as [|f IH]; intros m e; simpl; [done|].
  destruct (m mod 10 =? 0) eqn:E.
  - apply Z.eqb_eq in E. rewrite Z.mod_opp_l_z by lia.
    simpl. rewrite Z.div_opp_l_z by lia. apply IH.
  - apply Z.eqb_neq in E. rewrite Z.mod_opp_l_nz by lia.
    pose proof (Z.mod_pos_bound m 10 ltac:(lia)).
    by rewrite (proj2 (Z.eqb_neq (10 - m mod 10) 0)) by lia.
Qed.

(** The normal form of the opposite number. *)
Lemma normalize_opp m e :
  Num.normalize (Dec (- m) e) =
  Dec (- mant (Num.normalize (Dec m e))) (expo (Num.normalize (Dec m e))).
Proof.
  unfold Num.normalize. cbn [mant expo]. rewrite Z.abs_opp.
  destruct (m =? 0) eqn:E.
  - apply Z.eqb_eq in E. by subst m.
  - apply Z.eqb_neq in E. rewrite (proj2 (Z.eqb_neq (- m) 0)) by lia.
    apply strip_zeros_opp.
Qed.

(** [parseFloat] of a minus sign followed by a digit: the opposite of
    what it reads after the sign. *)
Lemma parseFloat_minus c r d :
  digit_value 10 c = Some d ->
  Num.parseFloat (String "-" (String c r)) =
  match Num.parseFloat (String c r) with
  | Finite x => Finite (Dec (- mant x) (expo x))
  | y => y
  end.
Proof.
  intros Hd. unfold Num.parseFloat.
  change (ltrim (String "-" ?s)) with (String "-" s).
  change (strip_sign (String "-" ?s)) with (true, s).
  simpl ltrim. rewrite (digit_not_space c d Hd).
  destruct (strip_sign_cases c r) as [[-> _]|[[-> _]| ->]]; [discriminate..|].
  rewrite (digit_not_I c d _ Hd).
  destruct (span_digits 10 (String c r)) as [ip r1].
  destruct (match r1 with String "." r0 => span_digits 10 r0 | _ => ([], r1) end)
    as [fp r2].
  destruct (ip ++ fp) as [|x l]; [done|].
  cbv zeta. by rewrite normalize_opp.
Qed.

Lemma float_re_minus c r d :
  digit_value 10 c = Some d ->
  Validator.float_re (String "-" (String c r)) = Validator.float_re (String c r).
Proof. intros Hd. by rewrite (float_re_digit c r d Hd). Qed.

Lemma normalize_zero d : mant d = 0 -> Num.normalize d = Dec 0 0.
Proof. intros H. unfold Num.normalize. by rewrite H. Qed.

(** [parseFloat(String(x))] is [x], and [isFloat(String(x), {gt: 0})]
    is [x > 0], for every finite number [x]. *)
Lemma to_string_read d :
  Num.parseFloat (Num.to_string d) = Finite (Num.normalize d) /\
  Validator.isFloat_gt0 (Num.to_string d) = (0 <? mant d).
Proof.
  destruct (Z.lt_trichotomy (mant d) 0) as [Hneg|[H0|Hpos]].
  - destruct d as [m e]. cbn [mant] in *.
    assert (Hn := normalize_opp (- m) e). rewrite Z.opp_involutive in Hn.
    assert (Hs := proj2 (normalize_sign (Dec (- m) e)) ltac:(simpl; lia)).
    assert (Hm := normalize_mod (Dec (- m) e) ltac:(simpl; lia)).
    destruct (Num.normalize (Dec (- m) e)) as [m' e']. cbn [mant expo] in *.
    unfold Num.to_string. rewrite Hn. cbv zeta. cbn [mant expo].
    rewrite (proj2 (Z.eqb_neq (- m') 0)) by lia.
    rewrite (proj2 (Z.ltb_lt (- m') 0)) by lia.
    rewrite Z.opp_involutive.
    destruct (positive_string_read m' e' Hs Hm) as (Hp & Hre & c & r & dd & Hstr & Hd).
    rewrite Hstr in *.
    change ("-" +:+ ?s) with (String "-" s).
    unfold Validator.isFloat_gt0.
    rewrite (parseFloat_minus c r dd Hd), (float_re_minus c r dd Hd), Hp, Hre.
    split; [done|]. cbn [mant expo Num.gt0].
    rewrite (proj2 (Z.ltb_ge 0 m)) by lia.
    rewrite (proj2 (Z.ltb_ge 0 (- m'))) by lia.
    by destruct (bool_decide _).
  - unfold Num.to_string. rewrite (normalize_zero d H0), H0. done.
  - assert (Hs := proj2 (normalize_sign d) Hpos).
    assert (Hm := normalize_mod d ltac:(lia)).
    unfold Num.to_string. destruct (Num.normalize d) as [m' e'].
    cbv zeta. cbn [mant expo] in *.
    rewrite (proj2 (Z.eqb_neq m' 0)) by lia.
    rewrite (proj2 (Z.ltb_ge m' 0)) by lia.
    destruct (positive_string_read m' e' Hs Hm) as (Hp & Hre & c & r & dd & Hstr & Hd).
    unfold Validator.isFloat_gt0. rewrite Hp, Hre, Hstr, (not_special c r dd Hd).
    split; [done|]. cbn [Num.gt0 mant]. simpl.
    rewrite (proj2 (Z.ltb_lt 0 (mant d))) by lia. by apply Z.ltb_lt.
Qed.

(** The price chain on a JSON number. *)
Lemma number_passes d :
  passes Validator.isFloat_gt0 (Some (VNum d)) <-> 0 < mant d.
Proof.
  unfold passes. cbn [wrap]. rewrite Forall_singleton.
  cbn [toString jsString].
  rewrite (proj2 (to_string_read d)). apply Z.ltb_lt.
Qed.

Lemma number_stored n b d :
  b !! "price" = Some (VNum d) -> price (stored n b) = Finite (Num.normalize d).
Proof.
  intros Hb. unfold stored. cbn [price]. rewrite Hb. unfold parseFloat.
  cbn [jsString_opt jsString]. apply to_string_read.
Qed.

(** A decimal of at most 15 digits that is not zero is within the range
    of the doubles. *)
Lemma short_in_range d :
  short_decimal d = true -> mant d <> 0 ->
  in_double_range (Num.normalize d) = true.
Proof.
  intros Hs Hd. assert (Hm := normalize_mod d Hd).
  unfold short_decimal in Hs. cbv zeta in Hs.
  destruct (Num.normalize d) as [m e]. cbn [mant expo] in *.
  apply andb_prop in Hs as [[Hm15 Hlo]%andb_prop Hhi].
  apply Z.ltb_lt in Hm15. apply Z.leb_le in Hlo, Hhi.
  assert (0 < Z.abs m) as Hpos.
  { assert (m <> 0) by (intros ->; by apply Hm). lia. }
  unfold in_double_range. cbn [mant expo]. cbv zeta.
  destruct (0 <=? e) eqn:E.
  - apply Z.leb_le in E. apply andb_true_intro. split; [by apply Z.ltb_lt|].
    apply Z.ltb_lt.
    assert (10 ^ e <= 10 ^ 293) as H1 by (apply Z.pow_le_mono_r; lia).
    assert (10 ^ 15 * 10 ^ 293 < 2 ^ 1024 - 2 ^ 970) as H2 by (by vm_compute).
    assert (0 < 10 ^ e) as H3 by (apply Z.pow_pos_nonneg; lia).
    eapply Z.le_lt_trans; [|exact H2].
    apply Z.mul_le_mono_nonneg; lia.
  - apply Z.leb_gt in E. apply andb_true_intro. split; apply Z.ltb_lt.
    + assert (10 ^ (- e) <= 10 ^ 307) as H1 by (apply Z.pow_le_mono_r; lia).
      assert (10 ^ 307 < 2 ^ 1075) as H2 by (by vm_compute).
      assert (0 < 2 ^ 1075) as H3 by (by vm_compute).
      eapply Z.le_lt_trans; [exact H1|]. eapply Z.lt_le_trans; [exact H2|].
      rewrite <- (Z.mul_1_l (2 ^ 1075)) at 1.
      apply Z.mul_le_mono_nonneg_r; lia.
    + assert (1 <= 10 ^ (- e)) as H1.
      { change 1 with (10 ^ 0). apply Z.pow_le_mono_r; lia. }
      assert (10 ^ 15 < 2 ^ 1024 - 2 ^ 970) as H2 by (by vm_compute).
      eapply Z.lt_le_trans; [exact Hm15|]. eapply Z.le_trans; [apply Z.lt_le_incl, H2|].
      rewrite <- (Z.mul_1_r (2 ^ 1024 - 2 ^ 970)) at 1.
      apply Z.mul_le_mono_nonneg_l; [by vm_compute|lia].
Qed.

End Rendering.

(** X15: a price sent as a JSON number of at most 15 significant digits
    and the same price sent as the string JavaScript writes for that
    number are told apart only by the value that an error on the price
    reports: POST and PUT leave the same collection and give the same
    answer but for the values of the errors, and the same answer in full
    when the number is above zero.  (The bound on the digits is what
    makes [Num.to_string] the string JavaScript writes.) *)
Theorem price_number_or_string b d idp st :
  b !! "price" = Some (VNum d) ->
  short_decimal d = true ->
  ((handle (POST_menu (<["price" := VStr (Num.to_string d)]> b)) st).2 =
     (handle (POST_menu b) st).2 /\
   without_values (handle (POST_menu (<["price" := VStr (Num.to_string d)]> b)) st).1 =
     without_values (handle (POST_menu b) st).1 /\
   (handle (PUT_menu_id idp (<["price" := VStr (Num.to_string d)]> b)) st).2 =
     (handle (PUT_menu_id idp b) st).2 /\
   without_values
     (handle (PUT_menu_id idp (<["price" := VStr (Num.to_string d)]> b)) st).1 =
     without_values (handle (PUT_menu_id idp b) st).1) /\
  (0 < mant d ->
   handle (POST_menu (<["price" := VStr (Num.to_string d)]> b)) st =
     handle (POST_menu b) st /\
   handle (PUT_menu_id idp (<["price" := VStr (Num.to_string d)]> b)) st =
     handle (PUT_menu_id idp b) st).
Proof.
  intros Hb _.
  assert (Hstored : forall n,
            stored n (<["price" := VStr (Num.to_string d)]> b) = stored n b).
  { intros n. unfold stored.
    rewrite lookup_insert_eq, !lookup_insert_ne by discriminate.
    by rewrite Hb. }
  split.
  - apply same_answers_but_values; [|done].
    unfold validateMenuItem.
    repeat (apply List.Forall_cons;
      [cbn [field];
       first [ rewrite lookup_insert_ne by discriminate; reflexivity
             | rewrite lookup_insert_eq, Hb; unfold chain_errors;
               cbn [is_optional field stack run_stack run_item isFloat_gt0
                    wrap flat_map fst snd app toString jsString];
               by destruct (Validator.isFloat_gt0 (Num.to_string d)) ]|]);
    apply List.Forall_nil.
  - intros Hpos. apply same_answers; [|done].
    unfold validateMenuItem.
    repeat (apply List.Forall_cons;
      [cbn [field];
       first [ rewrite lookup_insert_ne by discriminate; reflexivity
             | rewrite lookup_insert_eq, Hb; unfold chain_errors;
               cbn [is_optional field stack run_stack run_item isFloat_gt0
                    wrap flat_map fst snd app toString jsString];
               rewrite (proj2 (to_string_read d)),
                 (proj2 (Z.ltb_lt 0 (mant d))) by done;
               reflexivity ]|]);
    apply List.Forall_nil.
Qed.

Lemma price_number_or_string_witness :
  handle (POST_menu (<["price" := VStr (Num.to_string (Dec 350 (-2)))]> iced_tea))
    menuItems =
  handle (POST_menu iced_tea) menuItems.
Proof.
  refine (proj1 (proj2 (price_number_or_string iced_tea (Dec 350 (-2)) "1"
                          menuItems _ _) _));
    vm_compute; reflexivity.
Defined.

(** X17: a price sent as a JSON number of at most 15 significant digits
    passes validation exactly when the number is above zero.  A number
    that is not is reported with the message of the price and the number
    as the value; a body that passes is stored, by POST and by PUT, with
    that very number as its price, a finite number.  (On such numbers the
    exact decimals of this development and the doubles of JavaScript
    agree: a literal such as 1e-400, which a double rounds to zero, or
    1e400, which it rounds to [Infinity], is outside.) *)
Theorem number_price_kept b d :
  b !! "price" = Some (VNum d) ->
  short_decimal d = true ->
  (passes Validator.isFloat_gt0 (b !! "price") <-> 0 < mant d) /\
  (mant d <= 0 ->
   field_error "price" "Price must be a number greater than 0" (Some (VNum d))
     ∈ errors_of b) /\
  (errors_of b = [] ->
   0 < mant d /\
   (forall st, exists it,
      handle (POST_menu b) st = (Response 201 (OneItem it), st ++ [it]) /\
      price it = Finite (Num.normalize d) /\ price_is_finite it) /\
   (forall idp st i old, found idp st i old -> exists it,
      handle (PUT_menu_id idp b) st =
        (Response 200 (OneItem it), <[i := it]> st) /\
      price it = Finite (Num.normalize d) /\ price_is_finite it)).
Proof.
  intros Hb Hshort. split; [rewrite Hb; apply number_passes|]. split.
  - intros Hle.
    apply (chain_error_reported b
             (body "price" false
                [isFloat_gt0 "Price must be a number greater than 0"])).
    { unfold validateMenuItem. set_solver. }
    unfold chain_errors. cbn [is_optional field stack]. rewrite Hb.
    cbn [run_stack run_item isFloat_gt0 wrap flat_map fst snd app
         toString jsString].
    rewrite (proj2 (to_string_read d)), (proj2 (Z.ltb_ge 0 (mant d))) by lia.
    apply list_elem_of_here.
  - intros Hv.
    assert (Hpos : 0 < mant d).
    { apply number_passes. rewrite <- Hb. by apply valid_price. }
    assert (Hfin : forall n, price_is_finite (stored n b)).
    { intros n. exists (Num.normalize d). split; [by apply number_stored|].
      apply short_in_range; [done|lia]. }
    split; [done|split].
    + intros st. exists (stored (new_id st) b).
      split; [by apply post_valid|]. split; [by apply number_stored|done].
    + intros idp st i old Hf. exists (stored (id old) b).
      split; [|split; [by apply number_stored|done]].
      rewrite (put_valid idp b st Hv). unfold found in Hf. by rewrite Hf.
Qed.

Lemma number_price_kept_witness : 0 < mant (Dec 350 (-2)).
Proof.
  refine (proj1 (proj2 (proj2 (number_price_kept iced_tea (Dec 350 (-2)) _ _)) _));
    vm_compute; reflexivity.
Defined.
